(** * findiff.vector: the vector-calculus operators over per-axis differentiators

    A shallow embedding of [findiff/vector.py]: the classes [VectorOperator],
    [Gradient], [Divergence], [Curl] and [Laplacian].

    - numpy arrays are records of a shape and row-major float64 data;
    - Python objects live in a heap of cells addressed by locations, so that
      the in-place updates ([result += ...], [result[0] += ...]) are writes
      to a cell and "the caller's array is not written" is a statement
      about the heap;
    - exceptions are values of [exn], carried by a state-and-error monad;
    - [FinDiff] and [wrap_in_ndarray], which live in other modules of the
      package, are section variables.

    Arrays hold float64 numbers, the dtype of [np.zeros]; other dtypes and
    the casts between them are not modelled. A numpy scalar is a [VFloat].
    A view ([f[k]], [result[i]]) is read as the sub-array it shows and
    written through [set_row]. A differentiator is a function from its
    argument to a new array. *)

From Stdlib Require Import ZArith List Lia Floats.
From stdpp Require Import base option list strings gmap pretty.

(** ** Exceptions and results *)

(** The constructors keep apart the [raise] statements of vector.py
    ([TypeError], [ValueError]) and the exceptions that come out of the
    interpreter, of numpy or of the collaborators. *)
Inductive exn :=
| TypeError (msg : string)         (* raise TypeError(msg) in vector.py *)
| ValueError (msg : string)        (* raise ValueError(msg) in vector.py *)
| AttributeError (attr : string)   (* the interpreter: attribute lookup failed *)
| IndexError                       (* a subscript out of range *)
| BuiltinTypeError (why : string)  (* the interpreter's own TypeError, e.g. len() of an unsized object *)
| NumpyError (why : string)        (* raised inside a numpy operation *)
| ForeignError (why : string)      (* raised inside FinDiff or wrap_in_ndarray *)
| DanglingReference.               (* a location the heap does not hold; not reachable from Python *)

Inductive result (A : Type) :=
| Ok (a : A)
| Raise (e : exn).
Arguments Ok {A} a.
Arguments Raise {A} e.

#[global] Instance result_ret : MRet result := λ A a, Ok a.
#[global] Instance result_bind : MBind result := λ A B f m,
  match m with
  | Ok a => f a
  | Raise e => Raise e
  end.
#[global] Instance result_fmap : FMap result := λ A B f m,
  match m with
  | Ok a => Ok (f a)
  | Raise e => Raise e
  end.

(** What a collaborator gives back: a value, or an exception of its own. *)
Inductive outcome (A : Type) :=
| Returns (a : A)
| Fails (why : string).
Arguments Returns {A} a.
Arguments Fails {A} why.

Definition foreign {A} (o : outcome A) : result A :=
  match o with
  | Returns a => Ok a
  | Fails why => Raise (ForeignError why)
  end.

(** Exceptions raised by a [raise] statement of vector.py itself. *)
Definition raised_here (e : exn) : bool :=
  match e with
  | TypeError _ | ValueError _ => true
  | _ => false
  end.

Definition raises_here {A} (r : result A) : bool :=
  match r with
  | Ok _ => false
  | Raise e => raised_here e
  end.

(** ** numpy arrays *)

Record ndarray := NdArray { shape : list nat; data : list float }.

(** [a.size]: the number of elements of an array of shape [s]. *)
Definition size (s : list nat) : nat := foldr Nat.mul 1 s.

Definition well_formed (a : ndarray) : Prop := length (data a) = size (shape a).

(** [np.zeros(s)] *)
Definition np_zeros (s : list nat) : ndarray := NdArray s (replicate (size s) 0%float).

(** [len(a)] *)
Definition len (a : ndarray) : result nat :=
  match shape a with
  | [] => Raise (BuiltinTypeError "len() of unsized object")
  | n :: _ => Ok n
  end.

(** The [k]-th sub-array along the leading axis. *)
Definition row (a : ndarray) (k : nat) : ndarray :=
  let s := tail (shape a) in
  NdArray s (take (size s) (drop (k * size s) (data a))).

(** [a[k]] for [k >= 0] *)
Definition getitem (a : ndarray) (k : nat) : result ndarray :=
  match shape a with
  | [] => Raise IndexError
  | n :: _ => if decide (k < n) then Ok (row a k) else Raise IndexError
  end.

(** The array [a] with its [k]-th sub-array replaced by the data of [v]. *)
Definition set_row (a : ndarray) (k : nat) (v : ndarray) : ndarray :=
  let c := size (tail (shape a)) in
  NdArray (shape a) (take (k * c) (data a) ++ data v ++ drop (S k * c) (data a)).

(** *** Broadcasting *)

Fixpoint chunks (n c : nat) (d : list float) : list (list float) :=
  match n with
  | 0 => []
  | S n' => take c d :: chunks n' c (drop c d)
  end.

(** [bcast src dst d]: the data [d] of shape [src] repeated to shape [dst];
    the two shapes have the same rank, and an axis of length 1 stretches. *)
Fixpoint bcast (src dst : list nat) (d : list float) : option (list float) :=
  match src, dst with
  | [], [] => Some d
  | m :: src', n :: dst' =>
      if decide (m = n) then
        (λ cs, concat cs) <$> mapM (bcast src' dst') (chunks m (size src') d)
      else if decide (m = 1) then
        (λ r, concat (replicate n r)) <$> bcast src' dst' d
      else None
  | _, _ => None
  end.

(** [np.broadcast_to(a, dst)], as data: missing leading axes count as 1. *)
Definition broadcast_to (a : ndarray) (dst : list nat) : option (list float) :=
  if decide (length (shape a) ≤ length dst) then
    bcast (replicate (length dst - length (shape a)) 1 ++ shape a) dst (data a)
  else None.

(** The common shape of two operands, on the reversed shapes. *)
Fixpoint broadcast_rev (ra rb : list nat) : option (list nat) :=
  match ra, rb with
  | [], r => Some r
  | r, [] => Some r
  | m :: ra', n :: rb' =>
      if decide (m = n) then (m ::.) <$> broadcast_rev ra' rb'
      else if decide (m = 1) then (n ::.) <$> broadcast_rev ra' rb'
      else if decide (n = 1) then (m ::.) <$> broadcast_rev ra' rb'
      else None
  end.

Definition broadcast_shapes (sa sb : list nat) : option (list nat) :=
  reverse <$> broadcast_rev (reverse sa) (reverse sb).

Definition numpy {A} (why : string) (o : option A) : result A :=
  match o with
  | Some a => Ok a
  | None => Raise (NumpyError why)
  end.

(** [a += x] as a value: [x] is broadcast to the shape of [a]. *)
Definition np_iadd (a x : ndarray) : result ndarray :=
  d ← numpy "non-broadcastable operand" (broadcast_to x (shape a));
  Ok (NdArray (shape a) (zip_with PrimFloat.add (data a) d)).

(** [x - y] *)
Definition np_subtract (x y : ndarray) : result ndarray :=
  s ← numpy "operands could not be broadcast together" (broadcast_shapes (shape x) (shape y));
  dx ← numpy "operands could not be broadcast together" (broadcast_to x s);
  dy ← numpy "operands could not be broadcast together" (broadcast_to y s);
  Ok (NdArray s (zip_with PrimFloat.sub dx dy)).

(** [np.array(l)] for a list of arrays: the stack along a new leading axis.
    Arrays of different shapes do not stack (numpy 1.24 and later raise
    ValueError there). *)
Definition np_array (l : list ndarray) : result ndarray :=
  match l with
  | [] => Ok (NdArray [0] [])
  | a :: _ =>
      if decide (Forall (λ b, shape b = shape a) l) then
        Ok (NdArray (length l :: shape a) (concat (data <$> l)))
      else Raise (NumpyError "inhomogeneous shape")
  end.

(** Elementwise sum and difference of arrays of one shape. *)
Definition plus (a x : ndarray) : ndarray :=
  NdArray (shape a) (zip_with PrimFloat.add (data a) (data x)).
Definition minus (x y : ndarray) : ndarray :=
  NdArray (shape x) (zip_with PrimFloat.sub (data x) (data y)).

(** [np.array_equal(a, b, equal_nan=True)]: the same shape and, element by
    element, the same number under IEEE 754 equality (which identifies the
    two zeros), or NaN on both sides. *)
Definition same_value (x y : float) : bool :=
  PrimFloat.eqb x y || (PrimFloat.is_nan x && PrimFloat.is_nan y).

Definition array_equal (a b : ndarray) : Prop :=
  shape a = shape b ∧ Forall2 (λ x y, same_value x y = true) (data a) (data b).

(** ** Python values, objects and the heap *)

Definition loc := nat.

#[warnings="-register-all"]
Inductive value :=
| VNone
| VInt (z : Z)
| VFloat (x : float)             (* a Python float or a numpy float64 scalar *)
| VList (items : list value)
| VTuple (items : list value)
| VArray (a : ndarray)
| VObject (l : loc).             (* any other object, by reference *)

(** The callable that [FinDiff(...)] constructs. It is applied to an array
    (or to whatever the caller passed) and gives back a new array; it does
    not write its argument. *)
Definition differentiator : Type := value → outcome ndarray.

(** The attributes of a [VectorOperator] instance; an attribute that was
    never assigned is [None]. *)
Record VectorOperator := {
  h : option ndarray;
  ndims : option nat;
  components : option (list differentiator)
}.

Record Laplacian := { _parts : list differentiator }.

(** A freshly created instance, before [__init__] has run. *)
Definition new_instance : VectorOperator :=
  {| h := None; ndims := None; components := None |}.

Inductive object :=
| OValue (v : value)
| OVectorOperator (self : VectorOperator)
| OLaplacian (self : Laplacian).

Definition heap := list object.

(** Computations that read and write the heap and may raise. A raised
    exception keeps the heap as it was at the raise. *)
Definition M (A : Type) : Type := heap → result A * heap.

#[global] Instance M_ret : MRet M := λ A a σ, (Ok a, σ).
#[global] Instance M_bind : MBind M := λ A B f m σ,
  match m σ with
  | (Ok a, σ') => f a σ'
  | (Raise e, σ') => (Raise e, σ')
  end.

Definition raise {A} (e : exn) : M A := λ σ, (Raise e, σ).
Definition lift {A} (r : result A) : M A := λ σ, (r, σ).

Definition alloc (o : object) : M loc := λ σ, (Ok (length σ), σ ++ [o]).
Definition load (l : loc) : M object := λ σ,
  match σ !! l with
  | Some o => (Ok o, σ)
  | None => (Raise DanglingReference, σ)
  end.
Definition store (l : loc) (o : object) : M unit := λ σ, (Ok tt, <[l := o]> σ).

(** [for x in l: body(x)] *)
Fixpoint for_ {A} (l : list A) (body : A → M unit) : M unit :=
  match l with
  | [] => mret tt
  | x :: l' => body x ≫= λ _, for_ l' body
  end.

(** The object at [l], as the value an expression naming it evaluates to. *)
Definition deref (l : loc) : M value :=
  o ← load l;
  mret (match o with OValue v => v | _ => VObject l end).

Definition is_ndarray (v : value) : bool :=
  match v with VArray _ => true | _ => false end.
Definition is_list (v : value) : bool :=
  match v with VList _ => true | _ => false end.

(** [f.shape] *)
Definition shape_of (f : loc) : M (list nat) :=
  v ← deref f;
  match v with
  | VArray a => mret (shape a)
  | _ => raise (AttributeError "shape")
  end.

(** A sub-array as the value a subscript yields: a numpy scalar when the
    sub-array has no axis left. *)
Definition as_value (a : ndarray) : value :=
  match shape a, data a with
  | [], [x] => VFloat x
  | _, _ => VArray a
  end.

(** [f[k]] *)
Definition subscript (f : loc) (k : nat) : M value :=
  v ← deref f;
  match v with
  | VArray a => lift (as_value <$> getitem a k)
  | VList l | VTuple l =>
      match l !! k with
      | Some x => mret x
      | None => raise IndexError
      end
  | _ => raise (BuiltinTypeError "object is not subscriptable")
  end.

(** [self.ndims] *)
Definition getattr_ndims (self : loc) : M nat :=
  o ← load self;
  match o with
  | OVectorOperator op =>
      match ndims op with
      | Some n => mret n
      | None => raise (AttributeError "ndims")
      end
  | _ => raise (AttributeError "ndims")
  end.

(** [self.components[k]] *)
Definition component (self : loc) (k : nat) : M differentiator :=
  o ← load self;
  match o with
  | OVectorOperator op =>
      match components op with
      | Some ds =>
          match ds !! k with
          | Some d => mret d
          | None => raise IndexError
          end
      | None => raise (AttributeError "components")
      end
  | _ => raise (AttributeError "components")
  end.

(** [self._parts] *)
Definition getattr_parts (self : loc) : M (list differentiator) :=
  o ← load self;
  match o with
  | OLaplacian op => mret (_parts op)
  | _ => raise (AttributeError "_parts")
  end.

(** [d(v)] *)
Definition call (d : differentiator) (v : value) : M ndarray := lift (foreign (d v)).

(** [result += x] on the array object at [result]: written in place. *)
Definition iadd (result : loc) (x : ndarray) : M unit :=
  v ← deref result;
  match v with
  | VArray a =>
      a' ← lift (np_iadd a x);
      store result (OValue (VArray a'))
  | _ => raise (BuiltinTypeError "unsupported operand type(s) for +=")
  end.

(** [result[i]] as the target of an augmented assignment: a view of the
    array at [result]. *)
Definition view (result : loc) (i : nat) : M ndarray :=
  v ← deref result;
  match v with
  | VArray a => lift (getitem a i)
  | _ => raise (BuiltinTypeError "object is not subscriptable")
  end.

(** Writing the view back: the [i]-th sub-array of the array at [result]
    becomes [w]. *)
Definition write_view (result : loc) (i : nat) (w : ndarray) : M unit :=
  v ← deref result;
  match v with
  | VArray a => store result (OValue (VArray (set_row a i w)))
  | _ => raise (BuiltinTypeError "object does not support item assignment")
  end.

(** ** The operators of vector.py *)

Section vector.

(** [findiff.util.wrap_in_ndarray] and the class [findiff.diff.FinDiff]
    are imported by vector.py from other modules. [FinDiff] takes the
    positional tuple and the keyword arguments. *)
Variable wrap_in_ndarray : value → outcome ndarray.
Variable FinDiff : value → gmap string value → outcome differentiator.

(** numpy's conversion of an argument that is not an ndarray into one
    ([None] when numpy refuses). *)
Variable asarray : value → option ndarray.

(** [VectorOperator.__get_dimension] *)
Definition get_dimension (coords : value) : result nat :=
  match coords with
  | VArray a =>
      match shape a with
      | n :: _ :: _ => Ok n
      | _ => Ok 1
      end
  | VList l | VTuple l => Ok (length l)
  | _ => Raise (BuiltinTypeError "object has no len()")
  end.

(** The first [if] of [VectorOperator.__init__]: the attributes after it,
    and [kwargs] after the [pop]. *)
Definition init_h (self : VectorOperator) (kwargs : gmap string value)
  : result (VectorOperator * gmap string value) :=
  match kwargs !! "h" with
  | Some v =>
      let kwargs := delete "h" kwargs in
      ha ← foreign (wrap_in_ndarray v);
      n ← len ha;
      cs ← mapM (λ k,
              hk ← getitem ha k;
              foreign (FinDiff (VTuple [VInt (Z.of_nat k); as_value hk]) kwargs))
            (seq 0 n);
      Ok ({| h := Some ha; ndims := Some n; components := Some cs |}, kwargs)
  | None => Ok (self, kwargs)
  end.

(** The second [if] of [VectorOperator.__init__]. *)
Definition init_coords (self : VectorOperator) (kwargs : gmap string value)
  : result VectorOperator :=
  match kwargs !! "coords" with
  | Some coords =>
      let kwargs := delete "coords" kwargs in
      n ← get_dimension coords;
      cs ← mapM (λ k,
              foreign (FinDiff (VTuple [VInt (Z.of_nat k)]) (<["coords" := coords]> kwargs)))
            (seq 0 n);
      Ok {| h := h self; ndims := Some n; components := Some cs |}
  | None => Ok self
  end.

(** [VectorOperator.__init__(self, **kwargs)] *)
Definition VectorOperator_init (self : VectorOperator) (kwargs : gmap string value)
  : result VectorOperator :=
  '(self, kwargs) ← init_h self kwargs;
  init_coords self kwargs.

(** [Gradient.__init__] and [Divergence.__init__] only call the base class. *)
Definition Gradient_init := VectorOperator_init.
Definition Divergence_init := VectorOperator_init.

(** [Curl.__init__] *)
Definition Curl_init (self : VectorOperator) (kwargs : gmap string value)
  : result VectorOperator :=
  self ← VectorOperator_init self kwargs;
  match ndims self with
  | None => Raise (AttributeError "ndims")
  | Some n =>
      if decide (n ≠ 3) then
        Raise (ValueError ("Curl operation is only defined in 3 dimensions. "
                           +:+ pretty n +:+ " were given."))
      else Ok self
  end.

(** The calls [Gradient(...)], [Divergence(...)], [Curl(...)]: the new
    object, once its [__init__] has returned. *)
Definition Gradient_new (kwargs : gmap string value) : M loc :=
  self ← lift (Gradient_init new_instance kwargs);
  alloc (OVectorOperator self).
Definition Divergence_new (kwargs : gmap string value) : M loc :=
  self ← lift (Divergence_init new_instance kwargs);
  alloc (OVectorOperator self).
Definition Curl_new (kwargs : gmap string value) : M loc :=
  self ← lift (Curl_init new_instance kwargs);
  alloc (OVectorOperator self).

(** [Gradient.__call__(self, f)] *)
Definition Gradient_call (self f : loc) : M loc :=
  fv ← deref f;
  if negb (is_ndarray fv) then
    raise (TypeError "Function to differentiate must be numpy.ndarray")
  else
    s ← shape_of f;
    n ← getattr_ndims self;
    if decide (length s ≠ n) then
      raise (ValueError "Gradients can only be applied to scalar functions")
    else
      n ← getattr_ndims self;
      result ← mapM (λ k,
                  d_dxk ← component self k;
                  fv ← deref f;
                  call d_dxk fv)
                (seq 0 n);
      r ← lift (np_array result);
      alloc (OValue (VArray r)).

(** The condition of the second [if] of [Divergence.__call__] and of
    [Curl.__call__]:
    [len(f.shape) != self.ndims + 1 and f.shape[0] != self.ndims]. *)
Definition shape_mismatch (self f : loc) : M bool :=
  s ← shape_of f;
  n ← getattr_ndims self;
  if decide (length s ≠ n + 1) then
    s ← shape_of f;
    match s !! 0 with
    | None => raise IndexError
    | Some s0 =>
        n ← getattr_ndims self;
        mret (bool_decide (s0 ≠ n))
    end
  else mret false.

(** [Divergence.__call__(self, f)] *)
Definition Divergence_call (self f : loc) : M loc :=
  fv ← deref f;
  if negb (is_ndarray fv) && negb (is_list fv) then
    raise (TypeError "Function to differentiate must be numpy.ndarray or list of numpy.ndarrays")
  else
    bad ← shape_mismatch self f;
    if bad : bool then
      raise (ValueError "Divergence can only be applied to vector functions of the same dimension")
    else
      s ← shape_of f;
      result ← alloc (OValue (VArray (np_zeros (tail s))));
      n ← getattr_ndims self;
      for_ (seq 0 n) (λ k,
        d ← component self k;
        fk ← subscript f k;
        x ← call d fk;
        iadd result x);;
      mret result.

(** [result[i] += self.components[p](f[a]) - self.components[q](f[b])] *)
Definition curl_row (self f result : loc) (i p a q b : nat) : M unit :=
  target ← view result i;
  dp ← component self p;
  fa ← subscript f a;
  x ← call dp fa;
  dq ← component self q;
  fb ← subscript f b;
  y ← call dq fb;
  z ← lift (np_subtract x y);
  w ← lift (np_iadd target z);
  write_view result i w.

(** [Curl.__call__(self, f)] *)
Definition Curl_call (self f : loc) : M loc :=
  fv ← deref f;
  if negb (is_ndarray fv) && negb (is_list fv) then
    raise (TypeError "Function to differentiate must be numpy.ndarray or list of numpy.ndarrays")
  else
    bad ← shape_mismatch self f;
    if bad : bool then
      raise (ValueError "Curl can only be applied to vector functions of the three dimensions")
    else
      s ← shape_of f;
      result ← alloc (OValue (VArray (np_zeros s)));
      curl_row self f result 0 1 2 2 1;;
      curl_row self f result 1 2 0 0 2;;
      curl_row self f result 2 0 1 1 0;;
      mret result.

(** [Laplacian.__init__(self, h=[1.], acc=2)]; an argument that the caller
    leaves out is [None] here. *)
Definition Laplacian_init (h acc : option value) : result Laplacian :=
  let h := default (VList [VFloat 1%float]) h in
  let acc := default (VInt 2) acc in
  ha ← foreign (wrap_in_ndarray h);
  n ← len ha;
  parts ← mapM (λ k,
             hk ← getitem ha k;
             foreign (FinDiff (VTuple [VInt (Z.of_nat k); as_value hk; VInt 2])
                              {[ "acc" := acc ]}))
           (seq 0 n);
  Ok {| _parts := parts |}.

Definition Laplacian_new (h acc : option value) : M loc :=
  self ← lift (Laplacian_init h acc);
  alloc (OLaplacian self).

(** [np.zeros_like(f)] *)
Definition np_zeros_like (v : value) : result ndarray :=
  match v with
  | VArray a => Ok (np_zeros (shape a))
  | _ => a ← numpy "cannot convert to an array" (asarray v); Ok (np_zeros (shape a))
  end.

(** [Laplacian.__call__(self, f)] *)
Definition Laplacian_call (self f : loc) : M loc :=
  fv ← deref f;
  z ← lift (np_zeros_like fv);
  laplace_f ← alloc (OValue (VArray z));
  parts ← getattr_parts self;
  for_ parts (λ part,
    fv ← deref f;
    x ← call part fv;
    iadd laplace_f x);;
  mret laplace_f.

End vector.

(** ** Sample collaborators

    Concrete stand-ins for the imported pieces, used to run the operators
    on concrete grids. The theorems hold for every choice of these pieces;
    the samples only instantiate them. *)

(** A Python number as a float64. *)
Definition number (v : value) : option float :=
  match v with
  | VFloat x => Some x
  | VInt z =>
      let magnitude := PrimFloat.of_uint63 (Uint63.of_Z (Z.abs z)) in
      Some (if decide (z < 0)%Z then (- magnitude)%float else magnitude)
  | _ => None
  end.

(** Modelled from the spec: [findiff.util.wrap_in_ndarray] is not part of
    vector.py. The spec has the uniform spacings normalised "to a 1D
    numeric sequence of length N": a list or tuple of numbers becomes the
    one-dimensional array of these numbers, and an array is kept. *)
Definition sample_wrap (v : value) : outcome ndarray :=
  match v with
  | VArray a => Returns a
  | VList l | VTuple l =>
      match mapM number l with
      | Some xs => Returns (NdArray [length xs] xs)
      | None => Fails "not a sequence of numbers"
      end
  | _ => Fails "not a sequence"
  end.

Definition sample_asarray (v : value) : option ndarray :=
  match v with
  | VArray a => Some a
  | VList l | VTuple l => (λ xs, NdArray [length xs] xs) <$> mapM number l
  | _ => (λ x, NdArray [] [x]) <$> number v
  end.

Definition at_ (d : list float) (i : nat) : float := default 0%float (d !! i).

(** The number of elements between two neighbours along [axis]. *)
Definition stride (s : list nat) (axis : nat) : nat := size (drop (S axis) s).

(** A first derivative along an axis of [n] samples: the central difference
    quotient between the two neighbours, one-sided at either end. [width lo
    hi] is the distance between the grid points [lo] and [hi]. *)
Definition d1_at (width : nat → nat → float) (n st : nat) (d : list float) (i : nat) : float :=
  let p := (i / st) mod n in
  let lo := if decide (p = 0) then p else p - 1 in
  let hi := if decide (S p = n) then p else p + 1 in
  ((at_ d (i + (hi - p) * st) - at_ d (i - (p - lo) * st)) / width lo hi)%float.

(** A second derivative on a uniform grid: the three-point stencil, centred
    on the nearest interior point at either end. *)
Definition d2_at (hk : float) (n st : nat) (d : list float) (i : nat) : float :=
  let p := (i / st) mod n in
  let c := if decide (p = 0) then i + st else if decide (S p = n) then i - st else i in
  ((at_ d (c + st) - 2 * at_ d c + at_ d (c - st)) / (hk * hk))%float.

Definition along (axis : nat) (points : nat)
    (stencil : nat → nat → list float → nat → float) : differentiator := λ v,
  match v with
  | VArray a =>
      match shape a !! axis with
      | Some n =>
          if decide (points ≤ n) then
            Returns (NdArray (shape a)
                       (stencil n (stride (shape a) axis) (data a) <$> seq 0 (length (data a))))
          else Fails "too few grid points"
      | None => Fails "no such axis"
      end
  | _ => Fails "not an array"
  end.

Definition uniform (hk : float) (lo hi : nat) : float :=
  if decide (hi - lo = 2) then (2 * hk)%float else hk.
Definition nonuniform (x : list float) (lo hi : nat) : float :=
  (at_ x hi - at_ x lo)%float.

(** The coordinates along [axis], from either form of [coords]. *)
Definition coordinates (coords : value) (axis : nat) : option (list float) :=
  match coords with
  | VList l | VTuple l =>
      match l !! axis with
      | Some (VArray x) => Some (data x)
      | _ => None
      end
  | VArray a =>
      match shape a with
      | _ :: _ :: _ => if decide (axis < length (shape a)) then Some (data (row a axis)) else None
      | _ => if decide (axis = 0) then Some (data a) else None
      end
  | _ => None
  end.

Definition sample_FinDiff (args : value) (kwargs : gmap string value)
  : outcome differentiator :=
  match args with
  | VTuple [VInt k; VFloat hk] =>
      Returns (along (Z.to_nat k) 2 (d1_at (uniform hk)))
  | VTuple [VInt k; VFloat hk; VInt 2] =>
      Returns (along (Z.to_nat k) 3 (d2_at hk))
  | VTuple [VInt k] =>
      match kwargs !! "coords" with
      | Some c =>
          match coordinates c (Z.to_nat k) with
          | Some x => Returns (along (Z.to_nat k) 2 (d1_at (nonuniform x)))
          | None => Fails "no coordinates for this axis"
          end
      | None => Fails "neither spacing nor coordinates"
      end
  | _ => Fails "unsupported arguments"
  end.

(** A collaborator that refuses a spacing that is not positive, and is
    [sample_FinDiff] otherwise. *)
Definition strict_FinDiff (args : value) (kwargs : gmap string value)
  : outcome differentiator :=
  match args with
  | VTuple (VInt _ :: VFloat hk :: _) =>
      if (0 <? hk)%float then sample_FinDiff args kwargs
      else Fails "spacing must be positive"
  | _ => sample_FinDiff args kwargs
  end.

(** ** Sample grids and fields *)

(** [h=[1.0, 1.0]] and the operator that the base constructor builds from
    it with the sample collaborators. *)
Definition kwargs_h2 : gmap string value := {[ "h" := VList [VFloat 1; VFloat 1] ]}.

Definition operator2 : VectorOperator :=
  {| h := Some (NdArray [2] [1; 1]%float);
     ndims := Some 2;
     components := Some [along 0 2 (d1_at (uniform 1)); along 1 2 (d1_at (uniform 1))] |}.

(** [h=[1.0, 1.0, 1.0]] *)
Definition kwargs_h3 : gmap string value :=
  {[ "h" := VList [VFloat 1; VFloat 1; VFloat 1] ]}.

Definition operator3 : VectorOperator :=
  {| h := Some (NdArray [3] [1; 1; 1]%float);
     ndims := Some 3;
     components := Some [along 0 2 (d1_at (uniform 1)); along 1 2 (d1_at (uniform 1));
                         along 2 2 (d1_at (uniform 1))] |}.

(** A non-uniform grid of 3 by 2 points, given as a list of two coordinate
    arrays. *)
Definition coords32 : value :=
  VList [VArray (NdArray [3] [0; 1; 3]%float); VArray (NdArray [2] [0; 2]%float)].

Definition kwargs_coords : gmap string value := {[ "coords" := coords32 ]}.

(** Both keys, with no spacing at all in ["h"]. *)
Definition kwargs_both : gmap string value :=
  {[ "h" := VList []; "coords" := VList [VArray (NdArray [3] [0; 1; 3]%float)] ]}.

(** [Laplacian(h=[1.0, 1.0])] *)
Definition laplacian2 : Laplacian :=
  {| _parts := [along 0 3 (d2_at 1); along 1 3 (d2_at 1)] |}.

(** [f(x, y) = x * y] on the points [0, 1, 2] of both axes. *)
Definition field_xy : ndarray := NdArray [3; 3] [0; 0; 0; 0; 1; 2; 0; 2; 4]%float.

(** [f(x, y) = x^2 + y^2] on the same points. *)
Definition field_squares : ndarray := NdArray [3; 3] [0; 1; 4; 1; 2; 5; 4; 5; 8]%float.

(** The vector field [(x, y)] on the same points. *)
Definition field_position : ndarray :=
  NdArray [2; 3; 3] [0; 0; 0; 1; 1; 1; 2; 2; 2; 0; 1; 2; 0; 1; 2; 0; 1; 2]%float.

(** The vector field [(y, z, x)] on the points [0, 1] of three axes. *)
Definition field_yzx : ndarray :=
  NdArray [3; 2; 2; 2] [0; 0; 1; 1; 0; 0; 1; 1;
                        0; 1; 0; 1; 0; 1; 0; 1;
                        0; 0; 0; 0; 1; 1; 1; 1]%float.

(** Three components on a grid of 4 by 4 points: the rank is [ndims + 1]
    for two axes, the leading axis is longer than [ndims]. The components
    are [x], [y] and the constant 5. *)
Definition field_three_components : ndarray :=
  NdArray [3; 4; 4] [0; 0; 0; 0; 1; 1; 1; 1; 2; 2; 2; 2; 3; 3; 3; 3;
                     0; 1; 2; 3; 0; 1; 2; 3; 0; 1; 2; 3; 0; 1; 2; 3;
                     5; 5; 5; 5; 5; 5; 5; 5; 5; 5; 5; 5; 5; 5; 5; 5]%float.

(** The value a differentiator returns, for a call that does return. *)
Definition returned (o : outcome ndarray) : ndarray :=
  match o with
  | Returns x => x
  | Fails _ => NdArray [] []
  end.

(** What the two differentiators of [operator2] return on [field_xy]. *)
Definition gradient_xy : list ndarray :=
  Eval vm_compute in
    [returned (along 0 2 (d1_at (uniform 1)) (VArray field_xy));
     returned (along 1 2 (d1_at (uniform 1)) (VArray field_xy))].

(** What they return on the components of [field_position]. *)
Definition derivatives_position : list ndarray :=
  Eval vm_compute in
    [returned (along 0 2 (d1_at (uniform 1)) (as_value (row field_position 0)));
     returned (along 1 2 (d1_at (uniform 1)) (as_value (row field_position 1)))].

(** What the two differentiators of [laplacian2] return on [field_squares]. *)
Definition second_derivatives_squares : list ndarray :=
  Eval vm_compute in
    [returned (along 0 3 (d2_at 1) (VArray field_squares));
     returned (along 1 3 (d2_at 1) (VArray field_squares))].

(** [d_p(field_yzx[c])] for the differentiators of [operator3]. *)
Definition derivative_yzx (p c : nat) : ndarray :=
  returned (along p 2 (d1_at (uniform 1)) (as_value (row field_yzx c))).

(** What the differentiators of [operator2] return on the rows of the
    gradient of [field_xy], the [k]-th on the [k]-th row. *)
Definition divergence_gradient_xy : list ndarray :=
  Eval vm_compute in
    [returned (along 0 2 (d1_at (uniform 1))
                 (as_value (default (NdArray [] []) (gradient_xy !! 0))));
     returned (along 1 2 (d1_at (uniform 1))
                 (as_value (default (NdArray [] []) (gradient_xy !! 1))))].

(** The first two components of [field_yzx]: a field of rank four with one
    component too few for three axes. *)
Definition field_two_components : ndarray :=
  NdArray [2; 2; 2; 2] [0; 0; 1; 1; 0; 0; 1; 1;
                        0; 1; 0; 1; 0; 1; 0; 1]%float.

(** What the first two differentiators of [operator3] return on them. *)
Definition derivatives_two_components : list ndarray :=
  Eval vm_compute in
    [returned (along 0 2 (d1_at (uniform 1)) (as_value (row field_two_components 0)));
     returned (along 1 2 (d1_at (uniform 1)) (as_value (row field_two_components 1)))].

(** [field_yzx] with a fourth component, the constant 7. *)
Definition field_four_components : ndarray :=
  NdArray [4; 2; 2; 2] [0; 0; 1; 1; 0; 0; 1; 1;
                        0; 1; 0; 1; 0; 1; 0; 1;
                        0; 0; 0; 0; 1; 1; 1; 1;
                        7; 7; 7; 7; 7; 7; 7; 7]%float.

(** Spacings of which the second is zero. *)
Definition kwargs_h_zero : gmap string value := {[ "h" := VList [VFloat 1; VFloat 0] ]}.

(** Coordinates of which the second entry is no array. *)
Definition kwargs_coords_broken : gmap string value :=
  {[ "coords" := VList [VArray (NdArray [3] [0; 1; 3]%float); VFloat 1] ]}.

(** ** Vocabulary of the statements *)

(** The differentiator [d], applied to [v], returns [x], a well-formed
    array of shape [s]. *)
Definition yields (d : differentiator) (v : value) (s : list nat) (x : ndarray) : Prop :=
  d v = Returns x ∧ shape x = s ∧ well_formed x.

(** The [k]-th differentiator of [ds], applied to [inputs k], returns the
    [k]-th array of [xs], a well-formed array of shape [s]. *)
Definition differentiates (ds : list differentiator) (inputs : nat → value)
    (s : list nat) (xs : list ndarray) : Prop :=
  length xs = length ds ∧
  ∀ k d x, ds !! k = Some d → xs !! k = Some x →
    d (inputs k) = Returns x ∧ shape x = s ∧ well_formed x.

(** [m] leaves every cell of [σ0] as it is, whatever it allocates or writes
    beyond [σ0], also when it raises. *)
Definition framed {A} (σ0 : heap) (m : M A) : Prop :=
  ∀ σ, σ0 `prefix_of` σ → σ0 `prefix_of` (m σ).2.

(** [m] raises through no [raise] statement of vector.py. *)
Definition quiet {A} (m : M A) : Prop := ∀ σ, raises_here (m σ).1 = false.

(** Exceptions that come out of a differentiator or of a numpy operation. *)
Definition from_below (e : exn) : bool :=
  match e with
  | ForeignError _ | NumpyError _ => true
  | _ => false
  end.

Definition fails_only_below {A} (r : result A) : bool :=
  match r with
  | Ok _ => true
  | Raise e => from_below e
  end.

(** [m] only reads the heap: it ends in the heap it started in. *)
Definition reads {A} (m : M A) : Prop := ∀ σ, (m σ).2 = σ.

(** The value that a name bound to the object [o] at [l] evaluates to. *)
Definition value_at (l : loc) (o : object) : value :=
  match o with
  | OValue v => v
  | _ => VObject l
  end.

(** The heap [σ] is [σ0] and one more cell, an array of shape [s]: the
    state of a call between the allocation of its result and its return. *)
Definition holds_result (σ0 : heap) (s : list nat) (σ : heap) : Prop :=
  ∃ acc, σ = σ0 ++ [OValue (VArray acc)] ∧ shape acc = s.

(** [m] keeps the heap in that state, whether it returns or raises. *)
Definition keeps {A} (σ0 : heap) (s : list nat) (m : M A) : Prop :=
  ∀ σ, holds_result σ0 s σ → holds_result σ0 s (m σ).2.

(** ** Arrays: lemmas *)

Lemma size_cons n s : size (n :: s) = n * size s.
Proof. reflexivity. Qed.

Lemma well_formed_length x s : well_formed x → shape x = s → length (data x) = size s.
Proof. unfold well_formed. by intros -> <-. Qed.

Lemma np_zeros_well_formed s : well_formed (np_zeros s).
Proof. unfold well_formed, np_zeros. simpl. by rewrite length_replicate. Qed.

Lemma plus_well_formed a x :
  well_formed a → well_formed x → shape x = shape a → well_formed (plus a x).
Proof.
  unfold well_formed, plus. simpl. intros Ha Hx Hs.
  rewrite length_zip_with, Ha, Hx, Hs. lia.
Qed.

Lemma chunks_length n c d :
  length d = n * c → Forall (λ r, length r = c) (chunks n c d).
Proof.
  revert d. induction n as [|n IH]; intros d Hd; simpl; [constructor|].
  constructor.
  - rewrite length_take. lia.
  - apply IH. rewrite length_drop. lia.
Qed.

Lemma concat_chunks n c d : length d = n * c → concat (chunks n c d) = d.
Proof.
  revert d. induction n as [|n IH]; intros d Hd; simpl.
  - by destruct d.
  - rewrite IH; [apply take_drop|]. rewrite length_drop. lia.
Qed.

(** Broadcasting an array to its own shape changes nothing. *)
Lemma bcast_same s d : length d = size s → bcast s s d = Some d.
Proof.
  revert d. induction s as [|n s IH]; intros d Hd; [done|].
  simpl. rewrite decide_True by done.
  rewrite size_cons in Hd.
  assert (mapM (bcast s s) (chunks n (size s) d) = Some (chunks n (size s) d)) as ->.
  { apply mapM_Some_2, Forall2_same_length_lookup_2; [done|].
    intros i x y Hx Hy. simplify_eq. apply IH.
    eapply (Forall_lookup_1 _ _ _ _ (chunks_length n (size s) d Hd)), Hx. }
  simpl. by rewrite concat_chunks.
Qed.

Lemma broadcast_to_same a : well_formed a → broadcast_to a (shape a) = Some (data a).
Proof.
  intros Ha. unfold broadcast_to. rewrite decide_True by done.
  rewrite Nat.sub_diag. simpl. by apply bcast_same.
Qed.

Lemma broadcast_rev_same r : broadcast_rev r r = Some r.
Proof.
  induction r as [|n r IH]; [done|]. simpl.
  rewrite decide_True by done. by rewrite IH.
Qed.

Lemma broadcast_shapes_same s : broadcast_shapes s s = Some s.
Proof.
  unfold broadcast_shapes. rewrite broadcast_rev_same. simpl.
  by rewrite reverse_involutive.
Qed.

(** On operands of one shape, [+=] and [-] are elementwise. *)
Lemma np_iadd_same_shape a x :
  well_formed x → shape x = shape a → np_iadd a x = Ok (plus a x).
Proof.
  intros Hx Hs. unfold np_iadd. rewrite <- Hs, broadcast_to_same by done.
  simpl. unfold plus. by rewrite Hs.
Qed.

Lemma np_subtract_same_shape x y :
  well_formed x → well_formed y → shape y = shape x →
  np_subtract x y = Ok (minus x y).
Proof.
  intros Hx Hy Hs. unfold np_subtract. rewrite Hs, broadcast_shapes_same. simpl.
  rewrite broadcast_to_same by done. simpl.
  rewrite <- Hs, broadcast_to_same by done. simpl. by rewrite Hs.
Qed.

Lemma minus_well_formed x y :
  well_formed x → well_formed y → shape y = shape x → well_formed (minus x y).
Proof.
  unfold well_formed, minus. simpl. intros Hx Hy Hs.
  rewrite length_zip_with, Hx, Hy, Hs. lia.
Qed.

(** *** Sub-arrays *)

Lemma getitem_row a n s k :
  shape a = n :: s → k < n → getitem a k = Ok (row a k).
Proof. intros Hs Hk. unfold getitem. rewrite Hs. by rewrite decide_True. Qed.

Lemma row_shape a k : shape (row a k) = tail (shape a).
Proof. reflexivity. Qed.

Lemma row_well_formed a n s k :
  well_formed a → shape a = n :: s → k < n → well_formed (row a k).
Proof.
  unfold well_formed, row. intros Ha Hs Hk. rewrite Hs in *. simpl in *.
  rewrite length_take, length_drop, Ha. nia.
Qed.

Lemma row_np_zeros n s k : k < n → row (np_zeros (n :: s)) k = np_zeros s.
Proof.
  intros Hk. unfold row, np_zeros. simpl. f_equal.
  rewrite drop_replicate, take_replicate. f_equal. nia.
Qed.

Lemma set_row_shape a k v : shape (set_row a k v) = shape a.
Proof. reflexivity. Qed.

Lemma set_row_well_formed a n s k v :
  well_formed a → shape a = n :: s → k < n → length (data v) = size s →
  well_formed (set_row a k v).
Proof.
  unfold well_formed, set_row. intros Ha Hs Hk Hv. rewrite Hs in *. simpl in *.
  rewrite !length_app, length_take, length_drop, Ha, Hv. nia.
Qed.

(** The sub-array just written is read back. *)
Lemma row_set_row a n s k v :
  well_formed a → shape a = n :: s → k < n → shape v = s → well_formed v →
  row (set_row a k v) k = v.
Proof.
  unfold well_formed. intros Ha Hs Hk Hvs Hv. destruct v as [sv dv]. simpl in *. subst sv.
  unfold row, set_row. rewrite Hs in *. simpl in *. f_equal.
  rewrite drop_app_length' by (rewrite length_take; nia).
  by rewrite take_app_length'.
Qed.

(** The other sub-arrays are as before. *)
Lemma row_set_row_ne a n s k j v :
  well_formed a → shape a = n :: s → k < n → j < n → j ≠ k →
  length (data v) = size s →
  row (set_row a k v) j = row a j.
Proof.
  unfold well_formed. intros Ha Hs Hk Hj Hjk Hv.
  unfold row, set_row. rewrite Hs in *. simpl in *. f_equal.
  set (c := size s) in *.
  destruct (decide (j < k)) as [Hlt|Hge].
  - rewrite drop_app_le by (rewrite length_take; nia).
    rewrite take_app_le by (rewrite length_drop, length_take; nia).
    rewrite (take_drop_commute (take _ _)), (take_drop_commute (data a)).
    f_equal. rewrite take_take. f_equal. nia.
  - rewrite app_assoc.
    rewrite drop_app_ge by (rewrite length_app, length_take; nia).
    rewrite length_app, length_take, Hv, drop_drop. f_equal. f_equal. nia.
Qed.

(** The [k]-th sub-array of a stack is its [k]-th member. *)
Lemma row_stack s (l : list ndarray) k x :
  Forall (λ b, shape b = s ∧ well_formed b) l → l !! k = Some x →
  row (NdArray (length l :: s) (concat (data <$> l))) k = x.
Proof.
  intros Hl. revert k. induction Hl as [|b l [Hb Hwb] Hl IH]; intros k Hk; [done|].
  unfold well_formed in Hwb. rewrite Hb in Hwb.
  destruct k as [|k]; simpl in Hk; simplify_eq.
  - unfold row. destruct x as [sx dx]; simpl in *. subst. f_equal.
    by rewrite drop_0, take_app_length'.
  - rewrite <- (IH k Hk). unfold row. simpl. f_equal. f_equal.
    rewrite drop_app_ge by (rewrite Hwb; lia). f_equal. rewrite Hwb. lia.
Qed.

Lemma np_array_stack s (l : list ndarray) :
  Forall (λ b, shape b = s) l → l ≠ [] →
  np_array l = Ok (NdArray (length l :: s) (concat (data <$> l))).
Proof.
  intros Hl Hne. destruct l as [|a l]; [done|]. unfold np_array.
  assert (shape a = s) as Ha by by inversion Hl.
  rewrite decide_True; [by rewrite Ha|].
  eapply Forall_impl; [done|]. simpl. congruence.
Qed.

(** *** Floating point: adding to zero *)

Lemma add_zero_l_exact (x : float) :
  Prim2SF x ≠ S754_zero true → (0 + x)%float = x.
Proof.
  intros H. apply Prim2SF_inj. rewrite add_spec.
  change (Prim2SF 0%float) with (S754_zero false).
  destruct (Prim2SF x) as [s| s | | s m e] eqn:E; try reflexivity.
  destruct s; [congruence | reflexivity].
Qed.

(** [0.0 + x] is [x], but for the sign of a zero. *)
Lemma add_zero_l (x : float) : same_value (0 + x)%float x = true.
Proof.
  unfold same_value.
  destruct (Prim2SF x) as [s| s | | s m e] eqn:E.
  - assert ((0 + x)%float = 0%float) as ->.
    { apply Prim2SF_inj. rewrite add_spec, E. by destruct s. }
    rewrite FloatAxioms.eqb_spec, E. reflexivity.
  - rewrite add_zero_l_exact by (rewrite E; discriminate).
    rewrite FloatAxioms.eqb_spec, E. by destruct s.
  - rewrite add_zero_l_exact by (rewrite E; discriminate).
    unfold PrimFloat.is_nan. rewrite !FloatAxioms.eqb_spec, E. reflexivity.
  - rewrite add_zero_l_exact by (rewrite E; discriminate).
    rewrite FloatAxioms.eqb_spec, E. unfold SFeqb, SFcompare.
    rewrite Z.compare_refl.
    assert (PosDef.Pos.compare_cont Eq m m = Eq) as -> by apply Pos.compare_refl.
    by destruct s.
Qed.

(** Accumulating onto zeros gives the addend, as [np.array_equal] sees it. *)
Lemma plus_zeros x s :
  well_formed x → shape x = s → array_equal (plus (np_zeros s) x) x.
Proof.
  intros Hx <-. revert Hx.
  unfold well_formed, array_equal, plus, np_zeros. simpl. intros Hx. split; [done|].
  rewrite <- Hx. generalize (data x). intros d.
  induction d as [|y d IH]; simpl; constructor; [apply add_zero_l|done].
Qed.

(** *** The array operations on small inputs *)

Example getitem_second_row :
  getitem (NdArray [2; 3] [1; 2; 3; 4; 5; 6]%float) 1 = Ok (NdArray [3] [4; 5; 6]%float).
Proof. reflexivity. Qed.

Example getitem_out_of_range :
  getitem (NdArray [2; 3] [1; 2; 3; 4; 5; 6]%float) 2 = Raise IndexError.
Proof. reflexivity. Qed.

Example broadcast_row_and_column :
  broadcast_to (NdArray [2] [1; 2]%float) [2; 2] = Some [1; 2; 1; 2]%float
  ∧ broadcast_to (NdArray [2; 1] [1; 2]%float) [2; 2] = Some [1; 1; 2; 2]%float
  ∧ broadcast_to (NdArray [3] [1; 2; 3]%float) [2; 2] = None.
Proof. repeat split; reflexivity. Qed.

Example subtract_column_and_row :
  np_subtract (NdArray [2; 1] [10; 20]%float) (NdArray [3] [1; 2; 3]%float)
  = Ok (NdArray [2; 3] [9; 8; 7; 19; 18; 17]%float).
Proof. vm_compute. reflexivity. Qed.

Example iadd_does_not_grow_its_target :
  np_iadd (NdArray [2] [0; 0]%float) (NdArray [2; 2] [1; 2; 3; 4]%float)
  = Raise (NumpyError "non-broadcastable operand").
Proof. reflexivity. Qed.

Example np_array_of_two_rows :
  np_array [NdArray [2] [1; 2]%float; NdArray [2] [3; 4]%float]
  = Ok (NdArray [2; 2] [1; 2; 3; 4]%float).
Proof. reflexivity. Qed.

(** Why the rows of the curl are compared with [array_equal]: a negative
    zero added to the zero of [np.zeros] comes out positive. The two are
    equal numbers and different floats. *)
Example adding_to_zero_loses_the_sign_of_zero :
  plus (np_zeros [1]) (NdArray [1] [(-0)%float]) = NdArray [1] [0%float]
  ∧ same_value 0%float (-0)%float = true
  ∧ PrimFloat.classify 0%float = PZero ∧ PrimFloat.classify (-0)%float = NZero.
Proof. repeat split; vm_compute; reflexivity. Qed.

(** ** Running computations *)

Lemma run_bind {A B} (m : M A) (f : A → M B) σ :
  (m ≫= f) σ =
  match m σ with
  | (Ok a, σ') => f a σ'
  | (Raise e, σ') => (Raise e, σ')
  end.
Proof. reflexivity. Qed.

Lemma run_ret {A} (a : A) σ : (mret a : M A) σ = (Ok a, σ).
Proof. reflexivity. Qed.

Lemma deref_run σ l v : σ !! l = Some (OValue v) → deref l σ = (Ok v, σ).
Proof. intros H. unfold deref, load. rewrite run_bind, H. reflexivity. Qed.

Lemma shape_of_run σ f a :
  σ !! f = Some (OValue (VArray a)) → shape_of f σ = (Ok (shape a), σ).
Proof. intros H. unfold shape_of. rewrite run_bind, (deref_run _ _ _ H). reflexivity. Qed.

Lemma getattr_ndims_run σ self op n :
  σ !! self = Some (OVectorOperator op) → ndims op = Some n →
  getattr_ndims self σ = (Ok n, σ).
Proof.
  intros H Hn. unfold getattr_ndims, load. rewrite run_bind, H. simpl.
  rewrite Hn. reflexivity.
Qed.

Lemma component_run σ self op ds k d :
  σ !! self = Some (OVectorOperator op) → components op = Some ds →
  ds !! k = Some d → component self k σ = (Ok d, σ).
Proof.
  intros H Hds Hd. unfold component, load. rewrite run_bind, H. simpl.
  rewrite Hds, Hd. reflexivity.
Qed.

Lemma subscript_run σ f a n s k :
  σ !! f = Some (OValue (VArray a)) → shape a = n :: s → k < n →
  subscript f k σ = (Ok (as_value (row a k)), σ).
Proof.
  intros H Hs Hk. unfold subscript. rewrite run_bind, (deref_run _ _ _ H).
  simpl. by rewrite (getitem_row _ _ _ _ Hs Hk).
Qed.

Lemma call_run (d : differentiator) v x σ :
  d v = Returns x → call d v σ = (Ok x, σ).
Proof. intros H. unfold call, lift. by rewrite H. Qed.

Lemma iadd_run σ result acc x :
  σ !! result = Some (OValue (VArray acc)) →
  well_formed x → shape x = shape acc →
  iadd result x σ = (Ok tt, <[result := OValue (VArray (plus acc x))]> σ).
Proof.
  intros H Hx Hs. unfold iadd. rewrite run_bind, (deref_run _ _ _ H). simpl.
  rewrite run_bind. unfold lift. by rewrite np_iadd_same_shape.
Qed.

Lemma view_run σ result a n s i :
  σ !! result = Some (OValue (VArray a)) → shape a = n :: s → i < n →
  view result i σ = (Ok (row a i), σ).
Proof.
  intros H Hs Hi. unfold view. rewrite run_bind, (deref_run _ _ _ H). simpl.
  unfold lift. by rewrite (getitem_row _ _ _ _ Hs Hi).
Qed.

Lemma write_view_run σ result a i w :
  σ !! result = Some (OValue (VArray a)) →
  write_view result i w σ = (Ok tt, <[result := OValue (VArray (set_row a i w))]> σ).
Proof.
  intros H. unfold write_view. rewrite run_bind, (deref_run _ _ _ H). reflexivity.
Qed.

Lemma mapM_cons `{MBind T, MRet T} {A B} (f : A → T B) x l :
  mapM f (x :: l) = f x ≫= λ y, mapM f l ≫= λ k, mret (y :: k).
Proof. reflexivity. Qed.

(** A list comprehension whose body leaves the heap alone. *)
Lemma mapM_run {A B} (body : A → M B) (l : list A) (ys : list B) σ :
  Forall2 (λ x y, body x σ = (Ok y, σ)) l ys → mapM body l σ = (Ok ys, σ).
Proof.
  induction 1 as [|x y l ys Hxy _ IH]; [done|].
  rewrite mapM_cons, run_bind, Hxy, run_bind, IH. reflexivity.
Qed.

(** A list comprehension in [result]. *)
Lemma mapM_Ok {A B} (f : A → result B) (l : list A) (ys : list B) :
  mapM f l = Ok ys ↔ Forall2 (λ x y, f x = Ok y) l ys.
Proof.
  split.
  - revert ys. induction l as [|x l IH]; intros ys H; [|rewrite mapM_cons in H].
    + cbv in H. simplify_eq. constructor.
    + unfold mbind, result_bind in H. destruct (f x) as [y|] eqn:Hy; [|done].
      destruct (mapM f l) as [ys'|] eqn:Hys; [|done].
      unfold mret, result_ret in H. simplify_eq. constructor; [done|by apply IH].
  - induction 1 as [|x y l ys Hxy _ IH]; [done|].
    rewrite mapM_cons, Hxy.
    change (mapM f l ≫= (λ k, mret (y :: k)) = Ok (y :: ys)). by rewrite IH.
Qed.

(** The heap just after the result array was allocated. *)
Lemma lookup_fresh (σ : heap) o : (σ ++ [o]) !! length σ = Some o.
Proof. by rewrite lookup_app_r, Nat.sub_diag. Qed.

Lemma lookup_old (σ : heap) o l x : σ !! l = Some x → (σ ++ [o]) !! l = Some x.
Proof. apply lookup_app_l_Some. Qed.

Lemma insert_fresh (σ : heap) o o' : <[length σ := o']> (σ ++ [o]) = σ ++ [o'].
Proof. by rewrite insert_app_r_alt, Nat.sub_diag. Qed.

(** A loop that accumulates into the array allocated last:
    [result += x] for the arrays [xs] in turn, from [acc]. *)
Lemma for_accumulate {A} (body : A → M unit) (s : list nat) σ (l : list A) xs acc :
  Forall2 (λ k x, ∀ acc', shape acc' = s →
     shape x = s ∧
     body k (σ ++ [OValue (VArray acc')]) = (Ok tt, σ ++ [OValue (VArray (plus acc' x))])) l xs →
  shape acc = s →
  for_ l body (σ ++ [OValue (VArray acc)])
  = (Ok tt, σ ++ [OValue (VArray (foldl plus acc xs))]).
Proof.
  intros H. revert acc. induction H as [|k x l xs Hkx _ IH]; intros acc Hacc; [done|].
  simpl. destruct (Hkx acc Hacc) as [Hx Hrun].
  rewrite run_bind, Hrun. by apply IH.
Qed.

Lemma foldl_plus_shape xs acc : shape (foldl plus acc xs) = shape acc.
Proof. revert acc. induction xs as [|x xs IH]; intros acc; [done|]. simpl. by rewrite IH. Qed.

Tactic Notation "run" uconstr(H) := rewrite run_bind; erewrite H; cbv beta iota.

(** ** Application: what the operators compute *)

(** The outputs of the differentiators, seen from the loop over
    [range(n)]. *)
Lemma differentiates_seq ds inputs s xs n :
  differentiates ds inputs s xs → length ds = n →
  Forall2 (λ k x, ∃ d, ds !! k = Some d ∧
             d (inputs k) = Returns x ∧ shape x = s ∧ well_formed x) (seq 0 n) xs.
Proof.
  intros [Hlen H] Hn. apply Forall2_same_length_lookup_2.
  - rewrite length_seq. lia.
  - intros i k x Hk Hx. apply lookup_seq in Hk as [-> Hi]. simpl.
    destruct (lookup_lt_is_Some_2 ds i) as [d Hd]; [lia|].
    exists d. split; [done|]. by eapply H.
Qed.

Lemma differentiates_Forall ds inputs s xs :
  differentiates ds inputs s xs → Forall (λ x, shape x = s ∧ well_formed x) xs.
Proof.
  intros [Hlen H]. apply Forall_lookup_2. intros k x Hx.
  destruct (lookup_lt_is_Some_2 ds k) as [d Hd].
  { rewrite <- Hlen. by eapply lookup_lt_Some. }
  by eapply H.
Qed.

(** C6. Gradient application on an array [f] whose rank is the operator's
    [ndims], with differentiators that return arrays of the shape of [f]:
    the call returns a new array, the stack [d0(f), ..., d_{ndims-1}(f)] in
    axis order, whose rank is [ndims + 1] and whose leading axis has length
    [ndims]. *)
Theorem Gradient_call_stack σ self f op a n ds xs :
  σ !! self = Some (OVectorOperator op) →
  ndims op = Some n → components op = Some ds → length ds = n →
  σ !! f = Some (OValue (VArray a)) →
  length (shape a) = n →
  differentiates ds (λ _, VArray a) (shape a) xs →
  let r := NdArray (n :: shape a) (concat (data <$> xs)) in
  Gradient_call self f σ = (Ok (length σ), σ ++ [OValue (VArray r)])
  ∧ (∀ k x, xs !! k = Some x → getitem r k = Ok x)
  ∧ length (shape r) = n + 1 ∧ shape r !! 0 = Some n.
Proof.
  intros Hself Hn Hds Hlen Hf Hrank Hxs r.
  pose proof (differentiates_seq _ _ _ _ _ Hxs Hlen) as Hseq.
  pose proof (differentiates_Forall _ _ _ _ Hxs) as Hall.
  assert (length xs = n) as Hxn by (destruct Hxs; lia).
  split; [|split; [|split]].
  - unfold Gradient_call.
    run (deref_run _ _ _ Hf). change (negb (is_ndarray (VArray a))) with false.
    cbv beta iota.
    run (shape_of_run _ _ _ Hf).
    run (getattr_ndims_run _ _ _ _ Hself Hn).
    rewrite decide_False by lia.
    run (getattr_ndims_run _ _ _ _ Hself Hn).
    rewrite run_bind, (mapM_run _ (seq 0 n) xs σ); cbv beta iota.
    + assert (np_array xs = Ok r) as Hr.
      { destruct xs as [|x xs].
        - simpl in Hxn. subst r. rewrite <- Hxn in *.
          apply nil_length_inv in Hrank. by rewrite Hrank.
        - rewrite (np_array_stack (shape a)); [by rewrite Hxn| |done].
          eapply Forall_impl; [done|]. by intros ? []. }
      rewrite run_bind. unfold lift. rewrite Hr. reflexivity.
    + eapply Forall2_impl; [done|]. intros k x (d & Hd & Hdx & _).
      run (component_run _ _ _ _ _ _ Hself Hds Hd).
      run (deref_run _ _ _ Hf). by apply call_run.
  - intros k x Hk. unfold getitem. subst r. simpl.
    rewrite decide_True by (rewrite <- Hxn; by eapply lookup_lt_Some).
    f_equal. rewrite <- Hxn. by eapply row_stack.
  - simpl. lia.
  - done.
Qed.

Lemma alloc_run o σ : alloc o σ = (Ok (length σ), σ ++ [o]).
Proof. reflexivity. Qed.

(** The second [if] of [Divergence.__call__] and [Curl.__call__] on an
    array: the two comparisons are joined by [and]. *)
Lemma shape_mismatch_run σ self f op a n :
  σ !! self = Some (OVectorOperator op) → ndims op = Some n →
  σ !! f = Some (OValue (VArray a)) →
  shape_mismatch self f σ =
  (if decide (length (shape a) ≠ n + 1) then
     match shape a !! 0 with
     | None => Raise IndexError
     | Some s0 => Ok (bool_decide (s0 ≠ n))
     end
   else Ok false, σ).
Proof.
  intros Hself Hn Hf. unfold shape_mismatch.
  run (shape_of_run _ _ _ Hf). run (getattr_ndims_run _ _ _ _ Hself Hn).
  destruct (decide (length (shape a) ≠ n + 1)); [|done].
  run (shape_of_run _ _ _ Hf).
  destruct (shape a !! 0); [|done].
  run (getattr_ndims_run _ _ _ _ Hself Hn). reflexivity.
Qed.

(** With a leading axis of length [ndims] the condition is false, whatever
    the rank. *)
Lemma shape_mismatch_leading σ self f op a n s :
  σ !! self = Some (OVectorOperator op) → ndims op = Some n →
  σ !! f = Some (OValue (VArray a)) → shape a = n :: s →
  shape_mismatch self f σ = (Ok false, σ).
Proof.
  intros Hself Hn Hf Hs. rewrite (shape_mismatch_run _ _ _ _ _ _ Hself Hn Hf).
  rewrite Hs. simpl. destruct (decide _); [|done].
  by rewrite bool_decide_eq_false_2 by (intros ?; done).
Qed.

(** C7. Divergence application on an array [f] whose leading axis has
    length [ndims], with differentiators that return arrays shaped like a
    component of [f]: the result is a new array that starts as zeros of
    that shape and receives [d_k(f[k])] for [k = 0, ..., ndims - 1] in this
    order, each added in place: [((0 + x_0) + x_1) + ...]. *)
Theorem Divergence_call_accumulate σ self f op a n s ds xs :
  σ !! self = Some (OVectorOperator op) →
  ndims op = Some n → components op = Some ds → length ds = n →
  σ !! f = Some (OValue (VArray a)) →
  shape a = n :: s →
  differentiates ds (λ k, as_value (row a k)) s xs →
  Divergence_call self f σ
  = (Ok (length σ), σ ++ [OValue (VArray (foldl plus (np_zeros s) xs))])
  ∧ shape (foldl plus (np_zeros s) xs) = tail (shape a).
Proof.
  intros Hself Hn Hds Hlen Hf Hs Hxs.
  pose proof (differentiates_seq _ _ _ _ _ Hxs Hlen) as Hseq.
  split; [|by rewrite foldl_plus_shape, Hs].
  unfold Divergence_call.
  run (deref_run _ _ _ Hf).
  change (negb (is_ndarray (VArray a)) && negb (is_list (VArray a))) with false.
  cbv beta iota.
  run (shape_mismatch_leading _ _ _ _ _ _ _ Hself Hn Hf Hs).
  run (shape_of_run _ _ _ Hf). run alloc_run.
  run (getattr_ndims_run _ _ _ _ (lookup_old _ _ _ _ Hself) Hn).
  rewrite Hs. simpl tail.
  rewrite run_bind, (for_accumulate _ s σ (seq 0 n) xs); [done| |done].
  eapply Forall2_impl; [done|]. intros k x (d & Hd & Hdx & Hsx & Hwx) acc Hacc.
  split; [done|].
  assert (k < n) as Hk by (rewrite <- Hlen; by eapply lookup_lt_Some).
  run (component_run _ _ _ _ _ _ (lookup_old _ _ _ _ Hself) Hds Hd).
  run (subscript_run _ _ _ _ _ _ (lookup_old _ _ _ _ Hf) Hs Hk).
  run (call_run _ _ _ _ Hdx).
  rewrite (iadd_run _ _ acc) by (try apply lookup_fresh; congruence).
  by rewrite insert_fresh.
Qed.

(** One statement of [Curl.__call__]:
    [result[i] += self.components[p](f[a]) - self.components[q](f[b])]. *)
Lemma curl_row_run σ self f result op ds a n s R m i p ia q ib dp dq x y :
  σ !! self = Some (OVectorOperator op) → components op = Some ds →
  ds !! p = Some dp → ds !! q = Some dq →
  σ !! f = Some (OValue (VArray a)) → shape a = n :: s → ia < n → ib < n →
  yields dp (as_value (row a ia)) s x →
  yields dq (as_value (row a ib)) s y →
  σ !! result = Some (OValue (VArray R)) → shape R = m :: s → i < m →
  curl_row self f result i p ia q ib σ
  = (Ok tt, <[result := OValue (VArray (set_row R i (plus (row R i) (minus x y))))]> σ).
Proof.
  intros Hself Hds Hp Hq Hf Hs Hia Hib (Hx & Hxs & Hxw) (Hy & Hys & Hyw) HR HRs Hi.
  unfold curl_row.
  run (view_run _ _ _ _ _ _ HR HRs Hi).
  run (component_run _ _ _ _ _ _ Hself Hds Hp).
  run (subscript_run _ _ _ _ _ _ Hf Hs Hia).
  run (call_run _ _ _ _ Hx).
  run (component_run _ _ _ _ _ _ Hself Hds Hq).
  run (subscript_run _ _ _ _ _ _ Hf Hs Hib).
  run (call_run _ _ _ _ Hy).
  rewrite run_bind. unfold lift at 1.
  rewrite np_subtract_same_shape by congruence. cbv beta iota.
  rewrite run_bind. unfold lift at 1.
  rewrite np_iadd_same_shape; cbv beta iota.
  - by apply write_view_run.
  - apply minus_well_formed; congruence.
  - rewrite row_shape, HRs. simpl. congruence.
Qed.

(** C5. Curl application on an array [f] of three components of shape [s],
    with differentiators that return arrays of shape [s]: the call returns
    a new array [r] of the shape of [f] whose rows are
    [0 + (d1(f[2]) - d2(f[1]))], [0 + (d2(f[0]) - d0(f[2]))] and
    [0 + (d0(f[1]) - d1(f[0]))]; each row equals the difference itself as
    [np.array_equal] compares arrays. *)
Theorem Curl_call_rows σ self f op a s d0 d1 d2 x12 x21 x20 x02 x01 x10 :
  σ !! self = Some (OVectorOperator op) →
  ndims op = Some 3 → components op = Some [d0; d1; d2] →
  σ !! f = Some (OValue (VArray a)) →
  shape a = 3 :: s →
  yields d1 (as_value (row a 2)) s x12 → yields d2 (as_value (row a 1)) s x21 →
  yields d2 (as_value (row a 0)) s x20 → yields d0 (as_value (row a 2)) s x02 →
  yields d0 (as_value (row a 1)) s x01 → yields d1 (as_value (row a 0)) s x10 →
  ∃ r,
    Curl_call self f σ = (Ok (length σ), σ ++ [OValue (VArray r)])
    ∧ shape r = shape a
    ∧ getitem r 0 = Ok (plus (np_zeros s) (minus x12 x21))
    ∧ getitem r 1 = Ok (plus (np_zeros s) (minus x20 x02))
    ∧ getitem r 2 = Ok (plus (np_zeros s) (minus x01 x10))
    ∧ array_equal (row r 0) (minus x12 x21)
    ∧ array_equal (row r 1) (minus x20 x02)
    ∧ array_equal (row r 2) (minus x01 x10).
Proof.
  intros Hself Hn Hds Hf Hs H12 H21 H20 H02 H01 H10.
  set (w0 := plus (np_zeros s) (minus x12 x21)).
  set (w1 := plus (np_zeros s) (minus x20 x02)).
  set (w2 := plus (np_zeros s) (minus x01 x10)).
  set (R0 := np_zeros (3 :: s)).
  set (R1 := set_row R0 0 w0).
  set (R2 := set_row R1 1 w1).
  set (R3 := set_row R2 2 w2).
  assert (∀ x y, yields x.1 x.2 s y → shape y = s ∧ well_formed y) as Hy
    by (by intros ?? (_ & ? & ?)).
  assert (∀ x y, shape x = s → well_formed x → shape y = s → well_formed y →
            shape (plus (np_zeros s) (minus x y)) = s
            ∧ well_formed (plus (np_zeros s) (minus x y))) as Hw.
  { intros x y Hx Hxw Hy' Hyw. split; [done|].
    apply plus_well_formed; [apply np_zeros_well_formed| |by simpl].
    apply minus_well_formed; congruence. }
  destruct (Hy (d1, _) _ H12), (Hy (d2, _) _ H21), (Hy (d2, _) _ H20),
    (Hy (d0, _) _ H02), (Hy (d0, _) _ H01), (Hy (d1, _) _ H10).
  destruct (Hw x12 x21) as [Hs0 Hw0]; [done..|].
  destruct (Hw x20 x02) as [Hs1 Hw1]; [done..|].
  destruct (Hw x01 x10) as [Hs2 Hw2]; [done..|].
  fold w0 in Hs0, Hw0. fold w1 in Hs1, Hw1. fold w2 in Hs2, Hw2.
  assert (well_formed R0) as HR0 by apply np_zeros_well_formed.
  pose proof (well_formed_length _ _ Hw0 Hs0) as Hl0.
  pose proof (well_formed_length _ _ Hw1 Hs1) as Hl1.
  pose proof (well_formed_length _ _ Hw2 Hs2) as Hl2.
  assert (well_formed R1) as HR1 by (apply (set_row_well_formed R0 3 s); [done..|lia|done]).
  assert (well_formed R2) as HR2 by (apply (set_row_well_formed R1 3 s); [done..|lia|done]).
  assert (row R0 0 = np_zeros s) as E0 by (apply row_np_zeros; lia).
  assert (row R1 1 = np_zeros s) as E1.
  { unfold R1. erewrite row_set_row_ne; [apply row_np_zeros; lia|done..|lia|lia|lia|].
    done. }
  assert (row R2 2 = np_zeros s) as E2.
  { unfold R2. erewrite row_set_row_ne; [|done|done|lia|lia|lia|done].
    unfold R1. erewrite row_set_row_ne; [apply row_np_zeros; lia|done..|lia|lia|lia|].
    done. }
  assert (row R3 0 = w0) as F0.
  { unfold R3. erewrite row_set_row_ne; [|done|done|lia|lia|lia|done].
    unfold R2. erewrite row_set_row_ne; [|done|done|lia|lia|lia|done].
    unfold R1. by erewrite row_set_row; [|done|done|lia|..]. }
  assert (row R3 1 = w1) as F1.
  { unfold R3. erewrite row_set_row_ne; [|done|done|lia|lia|lia|done].
    unfold R2. by erewrite row_set_row; [|done|done|lia|..]. }
  assert (row R3 2 = w2) as F2.
  { unfold R3. by erewrite row_set_row; [|done|done|lia|..]. }
  exists R3. split; [|split; [by rewrite Hs|]].
  - unfold Curl_call.
    run (deref_run _ _ _ Hf).
    change (negb (is_ndarray (VArray a)) && negb (is_list (VArray a))) with false.
    cbv beta iota.
    run (shape_mismatch_leading _ _ _ _ _ _ _ Hself Hn Hf Hs).
    run (shape_of_run _ _ _ Hf). run alloc_run. rewrite Hs. fold R0.
    rewrite run_bind.
    erewrite (curl_row_run _ _ _ _ _ _ _ _ _ R0 3 0 1 2 2 1);
      [|by apply lookup_old|done|done|done|by apply lookup_old|done|lia|lia|done|done
       |apply lookup_fresh|done|lia].
    cbv beta iota. rewrite insert_fresh, E0. fold w0. fold R1.
    rewrite run_bind.
    erewrite (curl_row_run _ _ _ _ _ _ _ _ _ R1 3 1 2 0 0 2);
      [|by apply lookup_old|done|done|done|by apply lookup_old|done|lia|lia|done|done
       |apply lookup_fresh|done|lia].
    cbv beta iota. rewrite insert_fresh, E1. fold w1. fold R2.
    rewrite run_bind.
    erewrite (curl_row_run _ _ _ _ _ _ _ _ _ R2 3 2 0 1 1 0);
      [|by apply lookup_old|done|done|done|by apply lookup_old|done|lia|lia|done|done
       |apply lookup_fresh|done|lia].
    cbv beta iota. rewrite insert_fresh, E2. fold w2. fold R3.
    reflexivity.
  - assert (∀ k, k < 3 → getitem R3 k = Ok (row R3 k)) as Hg.
    { intros k Hk. by eapply getitem_row. }
    rewrite !Hg, F0, F1, F2 by lia.
    repeat split; try done.
    + apply plus_zeros; [apply minus_well_formed; congruence|done].
    + apply plus_zeros; [apply minus_well_formed; congruence|done].
    + apply plus_zeros; [apply minus_well_formed; congruence|done].
Qed.

Lemma foreign_Ok {A} (o : outcome A) a : foreign o = Ok a → o = Returns a.
Proof. destruct o; simpl; congruence. Qed.

Lemma getattr_parts_run σ self lp :
  σ !! self = Some (OLaplacian lp) → getattr_parts self σ = (Ok (_parts lp), σ).
Proof. intros H. unfold getattr_parts, load. rewrite run_bind, H. reflexivity. Qed.

Lemma len_shape a n : len a = Ok n → ∃ s, shape a = n :: s.
Proof. unfold len. destruct (shape a); intros; simplify_eq. eauto. Qed.

(** Computations in [result] that raise through no [raise] statement of
    vector.py. *)
Lemma still_bind {A B} (m : result A) (f : A → result B) :
  raises_here m = false → (∀ a, raises_here (f a) = false) →
  raises_here (m ≫= f) = false.
Proof. intros Hm Hf. destruct m; [apply Hf|done]. Qed.

Lemma still_foreign {A} (o : outcome A) : raises_here (foreign o) = false.
Proof. by destruct o. Qed.

Lemma still_mapM {A B} (f : A → result B) l :
  (∀ x, raises_here (f x) = false) → raises_here (mapM f l) = false.
Proof.
  intros Hf. induction l as [|x l IH]; [done|]. rewrite mapM_cons.
  apply still_bind; [done|]. intros y. by apply still_bind.
Qed.

Section properties.

Variable wrap_in_ndarray : value → outcome ndarray.
Variable FinDiff : value → gmap string value → outcome differentiator.
Variable asarray : value → option ndarray.

(** *** Construction *)

(** A list comprehension over [range(n)] whose [k]-th call returns the
    [k]-th element of [ds]. *)
Lemma comprehension_Ok {B} (call_k : nat → result B) n (ds : list B) :
  length ds = n → (∀ k d, ds !! k = Some d → call_k k = Ok d) →
  mapM call_k (seq 0 n) = Ok ds.
Proof.
  intros Hlen H. apply mapM_Ok, Forall2_same_length_lookup_2.
  - by rewrite length_seq.
  - intros i k d Hk Hd. apply lookup_seq in Hk as [-> _]. by apply H.
Qed.

Lemma comprehension_inv {B} (call_k : nat → result B) n (ds : list B) :
  mapM call_k (seq 0 n) = Ok ds →
  length ds = n ∧ ∀ k d, ds !! k = Some d → call_k k = Ok d.
Proof.
  intros H%mapM_Ok. split.
  - apply Forall2_length in H. by rewrite length_seq in H.
  - intros k d Hd.
    destruct (Forall2_lookup_r _ _ _ _ _ H Hd) as (k' & Hk & ?).
    by apply lookup_seq in Hk as [-> _].
Qed.

Lemma init_coords_Ok self kwargs coords n ds :
  kwargs !! "coords" = Some coords → get_dimension coords = Ok n →
  length ds = n →
  (∀ k d, ds !! k = Some d →
     FinDiff (VTuple [VInt (Z.of_nat k)]) (<["coords" := coords]> (delete "coords" kwargs))
     = Returns d) →
  init_coords FinDiff self kwargs
  = Ok {| h := h self; ndims := Some n; components := Some ds |}.
Proof.
  intros Hc Hn Hlen Hds. unfold init_coords. rewrite Hc. simpl. rewrite Hn. simpl.
  rewrite (comprehension_Ok _ n ds); [done..|].
  intros k d Hd. by rewrite (Hds k d Hd).
Qed.

Lemma init_coords_inv self kwargs coords self' :
  kwargs !! "coords" = Some coords → init_coords FinDiff self kwargs = Ok self' →
  ∃ n ds, get_dimension coords = Ok n ∧ self' = {| h := h self; ndims := Some n; components := Some ds |}
    ∧ length ds = n
    ∧ ∀ k d, ds !! k = Some d →
        FinDiff (VTuple [VInt (Z.of_nat k)]) (<["coords" := coords]> (delete "coords" kwargs))
        = Returns d.
Proof.
  intros Hc. unfold init_coords. rewrite Hc.
  destruct (get_dimension coords) as [n|] eqn:Hn; [|done]. simpl.
  match goal with |- context [mapM ?g (seq 0 n)] => destruct (mapM g (seq 0 n)) as [ds|] eqn:Hds end;
    [|done].
  simpl. intros [= <-]. apply comprehension_inv in Hds as [Hlen Hds].
  exists n, ds. repeat split; [done|].
  intros k d Hd. by apply foreign_Ok, Hds.
Qed.

Lemma init_h_kwargs self kwargs self' kwargs' :
  init_h wrap_in_ndarray FinDiff self kwargs = Ok (self', kwargs') →
  kwargs' = delete "h" kwargs.
Proof.
  unfold init_h. destruct (kwargs !! "h") as [hv|] eqn:Hh.
  - destruct (foreign (wrap_in_ndarray hv)) as [ha|]; [|done]. simpl.
    destruct (len ha) as [n|]; [|done]. simpl.
    match goal with |- context [mapM ?g (seq 0 n)] => destruct (mapM g (seq 0 n)) end; [|done].
    simpl. by intros [= _ <-].
  - intros [= _ <-]. by rewrite delete_id.
Qed.

(** With ["h"] alone: [ndims] is the length of the wrapped spacings and
    the [k]-th differentiator is [FinDiff((k, h[k]), ...)] with the
    remaining keyword arguments. *)
Theorem spacing_dimension_and_components self0 kwargs hv ha n ds :
  kwargs !! "h" = Some hv → kwargs !! "coords" = None →
  wrap_in_ndarray hv = Returns ha → len ha = Ok n → length ds = n →
  (∀ k d, ds !! k = Some d →
     FinDiff (VTuple [VInt (Z.of_nat k); as_value (row ha k)]) (delete "h" kwargs)
     = Returns d) →
  VectorOperator_init wrap_in_ndarray FinDiff self0 kwargs
  = Ok {| h := Some ha; ndims := Some n; components := Some ds |}.
Proof.
  intros Hh Hc Hwrap Hlen Hds HFinDiff.
  unfold VectorOperator_init, init_h. rewrite Hh. simpl.
  rewrite Hwrap. simpl. rewrite Hlen. simpl.
  destruct (len_shape _ _ Hlen) as [s Hs].
  rewrite (comprehension_Ok _ n ds); [|done|].
  - simpl. unfold init_coords. by rewrite lookup_delete_ne, Hc.
  - intros k d Hd.
    rewrite (getitem_row _ _ _ _ Hs) by (rewrite <- Hds; by eapply lookup_lt_Some).
    simpl. by rewrite (HFinDiff k d Hd).
Qed.

(** C3. With ["coords"] the number of dimensions comes from the
    coordinates: the first entry of the shape for an array with more than
    one axis, 1 for a one-dimensional array, the length for a list or tuple
    of per-axis arrays. Construction then builds exactly [ndims]
    differentiators, the [k]-th being [FinDiff((k,), coords=coords, ...)]
    with the remaining keyword arguments, for [k = 0, ..., ndims - 1]. *)
Theorem coords_dimension_and_components :
  (∀ a n m s, shape a = n :: m :: s → get_dimension (VArray a) = Ok n)
  ∧ (∀ a n, shape a = [n] → get_dimension (VArray a) = Ok 1)
  ∧ (∀ l, get_dimension (VList l) = Ok (length l)
          ∧ get_dimension (VTuple l) = Ok (length l))
  ∧ (∀ kwargs coords n ds,
       kwargs !! "h" = None → kwargs !! "coords" = Some coords →
       get_dimension coords = Ok n → length ds = n →
       (∀ k d, ds !! k = Some d →
          FinDiff (VTuple [VInt (Z.of_nat k)])
                  (<["coords" := coords]> (delete "coords" kwargs)) = Returns d) →
       VectorOperator_init wrap_in_ndarray FinDiff new_instance kwargs
       = Ok {| h := None; ndims := Some n; components := Some ds |})
  ∧ (∀ self0 kwargs coords self,
       kwargs !! "coords" = Some coords →
       VectorOperator_init wrap_in_ndarray FinDiff self0 kwargs = Ok self →
       ∃ n ds,
         get_dimension coords = Ok n ∧ ndims self = Some n
         ∧ components self = Some ds ∧ length ds = n
         ∧ ∀ k d, ds !! k = Some d →
             FinDiff (VTuple [VInt (Z.of_nat k)])
                     (<["coords" := coords]> (delete "coords" (delete "h" kwargs)))
             = Returns d).
Proof.
  split; [|split; [|split; [|split]]].
  - intros a n m s Hs. simpl. by rewrite Hs.
  - intros a n Hs. simpl. by rewrite Hs.
  - done.
  - intros kwargs coords n ds Hh Hc Hn Hlen Hds.
    unfold VectorOperator_init, init_h. rewrite Hh. simpl.
    by rewrite (init_coords_Ok _ _ coords n ds).
  - intros self0 kwargs coords self Hc. unfold VectorOperator_init.
    destruct (init_h _ _ self0 kwargs) as [[self1 kw1]|] eqn:Hh; [|done]. simpl.
    apply init_h_kwargs in Hh as ->.
    intros Hinit. apply (init_coords_inv _ _ coords) in Hinit as (n & ds & Hn & -> & Hlen & Hds).
    + by exists n, ds.
    + rewrite lookup_delete_ne; done.
Qed.

(** C4. [Curl.__init__] after the base constructor has returned with
    [ndims = n]: it returns the same object when [n = 3] and raises
    [ValueError] otherwise; so a [Curl] that was constructed has
    [ndims = 3]. *)
Theorem Curl_init_three_dimensions self0 kwargs self n :
  VectorOperator_init wrap_in_ndarray FinDiff self0 kwargs = Ok self →
  ndims self = Some n →
  (Curl_init wrap_in_ndarray FinDiff self0 kwargs = Ok self ↔ n = 3)
  ∧ (n ≠ 3 →
     Curl_init wrap_in_ndarray FinDiff self0 kwargs
     = Raise (ValueError ("Curl operation is only defined in 3 dimensions. "
                          +:+ pretty n +:+ " were given.")))
  ∧ (∀ self', Curl_init wrap_in_ndarray FinDiff self0 kwargs = Ok self' →
       self' = self ∧ ndims self' = Some 3).
Proof.
  intros Hinit Hn. unfold Curl_init. rewrite Hinit. simpl. rewrite Hn.
  destruct (decide (n ≠ 3)) as [Hne|Heq%dec_stable].
  - split; [|split]; [split|..]; try done.
  - subst n. split; [|split]; [split|..]; try done.
    by intros self' [= <-].
Qed.

Lemma init_h_still self kwargs :
  raises_here (init_h wrap_in_ndarray FinDiff self kwargs) = false.
Proof.
  unfold init_h. destruct (kwargs !! "h") as [hv|]; [|done].
  apply still_bind; [apply still_foreign|]. intros ha.
  apply still_bind; [by unfold len; destruct (shape ha)|]. intros n.
  apply still_bind; [|done].
  apply still_mapM. intros k.
  apply still_bind; [|intros; apply still_foreign].
  unfold getitem. destruct (shape ha); [done|]. by destruct (decide _).
Qed.

Lemma init_coords_still self kwargs :
  raises_here (init_coords FinDiff self kwargs) = false.
Proof.
  unfold init_coords. destruct (kwargs !! "coords") as [coords|]; [|done].
  apply still_bind.
  { destruct coords as [| ? | ? | ? | ? | a | ?]; try done.
    simpl. by destruct (shape a) as [|? [|? ?]]. }
  intros n. apply still_bind; [|done].
  apply still_mapM. intros k. apply still_foreign.
Qed.

(** C1, as the code has it. [VectorOperator.__init__] has no check that
    exactly one of ["h"] and ["coords"] is given, and it raises through no
    [raise] statement of its own. With neither key the constructor returns
    and sets no attribute; [Curl.__init__] then fails on reading the unset
    [ndims]. With both keys, once the ["h"] branch has returned, the
    ["coords"] branch runs on what is left of [kwargs]. *)
Theorem VectorOperator_init_checks_nothing :
  (∀ self0 kwargs,
     kwargs !! "h" = None → kwargs !! "coords" = None →
     VectorOperator_init wrap_in_ndarray FinDiff self0 kwargs = Ok self0)
  ∧ (∀ kwargs,
       kwargs !! "h" = None → kwargs !! "coords" = None →
       Curl_init wrap_in_ndarray FinDiff new_instance kwargs = Raise (AttributeError "ndims"))
  ∧ (∀ self0 kwargs self1 kwargs1,
       init_h wrap_in_ndarray FinDiff self0 kwargs = Ok (self1, kwargs1) →
       VectorOperator_init wrap_in_ndarray FinDiff self0 kwargs
       = init_coords FinDiff self1 (delete "h" kwargs))
  ∧ (∀ self0 kwargs,
       raises_here (VectorOperator_init wrap_in_ndarray FinDiff self0 kwargs) = false).
Proof.
  split; [|split; [|split]].
  - intros self0 kwargs Hh Hc. unfold VectorOperator_init, init_h, init_coords.
    rewrite Hh. simpl. by rewrite Hc.
  - intros kwargs Hh Hc. unfold Curl_init, VectorOperator_init, init_h, init_coords.
    rewrite Hh. simpl. by rewrite Hc.
  - intros self0 kwargs self1 kwargs1 Hh. unfold VectorOperator_init.
    rewrite Hh. simpl. by apply init_h_kwargs in Hh as ->.
  - intros self0 kwargs. unfold VectorOperator_init.
    apply still_bind; [apply init_h_still|].
    intros [self1 kwargs1]. apply init_coords_still.
Qed.

(** *** The Laplacian *)

(** C8. [Laplacian]: the defaults of the constructor are [h = [1.]] and
    [acc = 2]; it builds one differentiator per entry of the wrapped [h],
    each [FinDiff((k, h[k], 2), acc=acc)], a second derivative along axis
    [k]; application on an array [f] starts from zeros shaped like [f] and
    adds [d(f)] in place for the differentiators in axis order, and
    returns this new array, which has the shape of [f]. *)
Theorem Laplacian_sums_second_derivatives :
  Laplacian_init wrap_in_ndarray FinDiff None None
  = Laplacian_init wrap_in_ndarray FinDiff (Some (VList [VFloat 1%float])) (Some (VInt 2))
  ∧ (∀ hv acc ha n ds,
       wrap_in_ndarray (default (VList [VFloat 1%float]) hv) = Returns ha →
       len ha = Ok n → length ds = n →
       (∀ k d, ds !! k = Some d →
          FinDiff (VTuple [VInt (Z.of_nat k); as_value (row ha k); VInt 2])
                  {[ "acc" := default (VInt 2) acc ]} = Returns d) →
       Laplacian_init wrap_in_ndarray FinDiff hv acc = Ok {| _parts := ds |})
  ∧ (∀ σ self f lp a xs,
       σ !! self = Some (OLaplacian lp) →
       σ !! f = Some (OValue (VArray a)) →
       differentiates (_parts lp) (λ _, VArray a) (shape a) xs →
       Laplacian_call asarray self f σ
       = (Ok (length σ), σ ++ [OValue (VArray (foldl plus (np_zeros (shape a)) xs))])
       ∧ shape (foldl plus (np_zeros (shape a)) xs) = shape a).
Proof.
  split; [done|]. split.
  - intros hv acc ha n ds Hwrap Hlen Hds HFinDiff. unfold Laplacian_init. simpl.
    rewrite Hwrap. simpl. rewrite Hlen. simpl.
    destruct (len_shape _ _ Hlen) as [s Hs].
    rewrite (comprehension_Ok _ n ds); [done..|].
    intros k d Hd.
    rewrite (getitem_row _ _ _ _ Hs) by (rewrite <- Hds; by eapply lookup_lt_Some).
    simpl. by rewrite (HFinDiff k d Hd).
  - intros σ self f lp a xs Hself Hf Hxs.
    split; [|by rewrite foldl_plus_shape].
    unfold Laplacian_call.
    run (deref_run _ _ _ Hf). rewrite run_bind. unfold lift at 1.
    cbn [np_zeros_like]. cbv beta iota.
    run alloc_run. run (getattr_parts_run _ _ _ (lookup_old _ _ _ _ Hself)).
    rewrite run_bind, (for_accumulate _ (shape a) σ (_parts lp) xs); [done| |done].
    destruct Hxs as [Hlen Hxs].
    apply Forall2_same_length_lookup_2; [done|].
    intros k d x Hd Hx acc' Hacc. destruct (Hxs k d x Hd Hx) as (Hdx & Hsx & Hwx).
    split; [done|].
    run (deref_run _ _ _ (lookup_old _ _ _ _ Hf)).
    run (call_run _ _ _ _ Hdx).
    rewrite (iadd_run _ _ acc') by (try apply lookup_fresh; congruence).
    by rewrite insert_fresh.
Qed.

(** *** The caller's objects are not written *)

Lemma framed_ret {A} σ0 (a : A) : framed σ0 (mret a).
Proof. by intros σ Hσ. Qed.

Lemma framed_raise {A} σ0 e : framed σ0 (raise e : M A).
Proof. by intros σ Hσ. Qed.

Lemma framed_lift {A} σ0 (r : result A) : framed σ0 (lift r).
Proof. by intros σ Hσ. Qed.

Lemma framed_bind {A B} σ0 (m : M A) (f : A → M B) :
  framed σ0 m → (∀ a, framed σ0 (f a)) → framed σ0 (m ≫= f).
Proof.
  intros Hm Hf σ Hσ. rewrite run_bind. specialize (Hm σ Hσ).
  destruct (m σ) as [[a|e] σ']; [by apply Hf|done].
Qed.

Lemma framed_load σ0 l : framed σ0 (load l).
Proof. intros σ Hσ. unfold load. by case_match. Qed.

(** A new object is a new cell, beyond those of [σ0]. *)
Lemma framed_alloc_bind {B} σ0 o (f : loc → M B) :
  (∀ l, length σ0 ≤ l → framed σ0 (f l)) → framed σ0 (alloc o ≫= f).
Proof.
  intros Hf σ Hσ. rewrite run_bind, alloc_run. apply Hf.
  - by apply prefix_length.
  - by apply prefix_app_r.
Qed.

(** A write to a cell beyond those of [σ0]. *)
Lemma framed_store σ0 l o : length σ0 ≤ l → framed σ0 (store l o).
Proof.
  intros Hl σ [new ->]. exists (<[l - length σ0 := o]> new).
  by apply insert_app_r_alt.
Qed.

Lemma framed_for {A} σ0 (l : list A) (body : A → M unit) :
  (∀ x, framed σ0 (body x)) → framed σ0 (for_ l body).
Proof.
  intros Hbody. induction l as [|x l IH]; [apply framed_ret|].
  simpl. apply framed_bind; [done|]. by intros _.
Qed.

Lemma framed_mapM {A B} σ0 (f : A → M B) (l : list A) :
  (∀ x, framed σ0 (f x)) → framed σ0 (mapM f l).
Proof.
  intros Hf. induction l as [|x l IH]; [apply framed_ret|].
  rewrite mapM_cons. apply framed_bind; [done|]. intros y.
  apply framed_bind; [done|]. intros ys. apply framed_ret.
Qed.

Ltac framed_step :=
  first
    [ apply framed_ret | apply framed_raise | apply framed_lift | apply framed_load
    | apply framed_store; done
    | apply framed_for; intros ? | apply framed_mapM; intros ?
    | apply framed_alloc_bind; intros ? ?
    | apply framed_bind; [|intros ?]
    | match goal with
      | |- framed _ (match ?x with _ => _ end) => destruct x
      end ].

Lemma framed_deref σ0 l : framed σ0 (deref l).
Proof. unfold deref. repeat framed_step. Qed.

Lemma framed_shape_of σ0 f : framed σ0 (shape_of f).
Proof. unfold shape_of. apply framed_bind; [apply framed_deref|]. intros ?. repeat framed_step. Qed.

Lemma framed_subscript σ0 f k : framed σ0 (subscript f k).
Proof. unfold subscript. apply framed_bind; [apply framed_deref|]. intros ?. repeat framed_step. Qed.

Lemma framed_getattr_ndims σ0 self : framed σ0 (getattr_ndims self).
Proof. unfold getattr_ndims. repeat framed_step. Qed.

Lemma framed_component σ0 self k : framed σ0 (component self k).
Proof. unfold component. repeat framed_step. Qed.

Lemma framed_getattr_parts σ0 self : framed σ0 (getattr_parts self).
Proof. unfold getattr_parts. repeat framed_step. Qed.

Lemma framed_call σ0 d v : framed σ0 (call d v).
Proof. apply framed_lift. Qed.

Lemma framed_iadd σ0 result x : length σ0 ≤ result → framed σ0 (iadd result x).
Proof.
  intros Hr. unfold iadd. apply framed_bind; [apply framed_deref|]. intros ?.
  repeat framed_step.
Qed.

Lemma framed_view σ0 result i : framed σ0 (view result i).
Proof. unfold view. apply framed_bind; [apply framed_deref|]. intros ?. repeat framed_step. Qed.

Lemma framed_write_view σ0 result i w :
  length σ0 ≤ result → framed σ0 (write_view result i w).
Proof.
  intros Hr. unfold write_view. apply framed_bind; [apply framed_deref|]. intros ?.
  repeat framed_step.
Qed.

Lemma framed_shape_mismatch σ0 self f : framed σ0 (shape_mismatch self f).
Proof.
  unfold shape_mismatch.
  apply framed_bind; [apply framed_shape_of|]. intros ?.
  apply framed_bind; [apply framed_getattr_ndims|]. intros ?.
  destruct (decide _); [|apply framed_ret].
  apply framed_bind; [apply framed_shape_of|]. intros s.
  destruct (s !! 0); [|apply framed_raise].
  apply framed_bind; [apply framed_getattr_ndims|]. intros ?. apply framed_ret.
Qed.

Lemma framed_curl_row σ0 self f result i p a q b :
  length σ0 ≤ result → framed σ0 (curl_row self f result i p a q b).
Proof.
  intros Hr. unfold curl_row.
  apply framed_bind; [apply framed_view|]. intros ?.
  apply framed_bind; [apply framed_component|]. intros ?.
  apply framed_bind; [apply framed_subscript|]. intros ?.
  apply framed_bind; [apply framed_call|]. intros ?.
  apply framed_bind; [apply framed_component|]. intros ?.
  apply framed_bind; [apply framed_subscript|]. intros ?.
  apply framed_bind; [apply framed_call|]. intros ?.
  apply framed_bind; [apply framed_lift|]. intros ?.
  apply framed_bind; [apply framed_lift|]. intros ?.
  by apply framed_write_view.
Qed.

Lemma framed_Gradient_call σ0 self f : framed σ0 (Gradient_call self f).
Proof.
  unfold Gradient_call.
  apply framed_bind; [apply framed_deref|]. intros fv.
  destruct (negb _); [apply framed_raise|].
  apply framed_bind; [apply framed_shape_of|]. intros s.
  apply framed_bind; [apply framed_getattr_ndims|]. intros n.
  destruct (decide _); [apply framed_raise|].
  apply framed_bind; [apply framed_getattr_ndims|]. intros n'.
  apply framed_bind.
  { apply framed_mapM. intros k.
    apply framed_bind; [apply framed_component|]. intros ?.
    apply framed_bind; [apply framed_deref|]. intros ?. apply framed_call. }
  intros result. apply framed_bind; [apply framed_lift|]. intros r.
  intros σ Hσ. by apply prefix_app_r.
Qed.

Lemma framed_Divergence_call σ0 self f : framed σ0 (Divergence_call self f).
Proof.
  unfold Divergence_call.
  apply framed_bind; [apply framed_deref|]. intros fv.
  destruct (_ && _); [apply framed_raise|].
  apply framed_bind; [apply framed_shape_mismatch|]. intros [|]; [apply framed_raise|].
  apply framed_bind; [apply framed_shape_of|]. intros s.
  apply framed_alloc_bind. intros result Hresult.
  apply framed_bind; [apply framed_getattr_ndims|]. intros n.
  apply framed_bind; [|intros; apply framed_ret].
  apply framed_for. intros k.
  apply framed_bind; [apply framed_component|]. intros ?.
  apply framed_bind; [apply framed_subscript|]. intros ?.
  apply framed_bind; [apply framed_call|]. intros ?.
  by apply framed_iadd.
Qed.

Lemma framed_Curl_call σ0 self f : framed σ0 (Curl_call self f).
Proof.
  unfold Curl_call.
  apply framed_bind; [apply framed_deref|]. intros fv.
  destruct (_ && _); [apply framed_raise|].
  apply framed_bind; [apply framed_shape_mismatch|]. intros [|]; [apply framed_raise|].
  apply framed_bind; [apply framed_shape_of|]. intros s.
  apply framed_alloc_bind. intros result Hresult.
  apply framed_bind; [by apply framed_curl_row|]. intros _.
  apply framed_bind; [by apply framed_curl_row|]. intros _.
  apply framed_bind; [by apply framed_curl_row|]. intros _.
  apply framed_ret.
Qed.

Lemma framed_Laplacian_call σ0 self f : framed σ0 (Laplacian_call asarray self f).
Proof.
  unfold Laplacian_call.
  apply framed_bind; [apply framed_deref|]. intros fv.
  apply framed_bind; [apply framed_lift|]. intros z.
  apply framed_alloc_bind. intros laplace_f Hresult.
  apply framed_bind; [apply framed_getattr_parts|]. intros parts.
  apply framed_bind; [|intros; apply framed_ret].
  apply framed_for. intros part.
  apply framed_bind; [apply framed_deref|]. intros ?.
  apply framed_bind; [apply framed_call|]. intros ?.
  by apply framed_iadd.
Qed.

(** C9. Whatever [self] and [f] are and whether the call returns or raises,
    the heap after applying [Gradient], [Divergence], [Curl] or [Laplacian]
    is the heap before followed by new cells: the array behind [f], the
    operator behind [self] with its [ndims] and differentiators, and every
    other object of the caller hold what they held. *)
Theorem application_writes_no_caller_object σ self f :
  (∃ new, (Gradient_call self f σ).2 = σ ++ new)
  ∧ (∃ new, (Divergence_call self f σ).2 = σ ++ new)
  ∧ (∃ new, (Curl_call self f σ).2 = σ ++ new)
  ∧ (∃ new, (Laplacian_call asarray self f σ).2 = σ ++ new).
Proof.
  split; [|split; [|split]].
  - by apply (framed_Gradient_call σ).
  - by apply (framed_Divergence_call σ).
  - by apply (framed_Curl_call σ).
  - by apply (framed_Laplacian_call σ).
Qed.

(** *** [Laplacian.__call__] checks nothing *)

Lemma quiet_ret {A} (a : A) : quiet (mret a).
Proof. by intros σ. Qed.

Lemma quiet_raise {A} e : raised_here e = false → quiet (raise e : M A).
Proof. by intros He σ. Qed.

Lemma quiet_lift {A} (r : result A) : raises_here r = false → quiet (lift r).
Proof. by intros Hr σ. Qed.

Lemma quiet_bind {A B} (m : M A) (f : A → M B) :
  quiet m → (∀ a, quiet (f a)) → quiet (m ≫= f).
Proof.
  intros Hm Hf σ. rewrite run_bind. specialize (Hm σ).
  destruct (m σ) as [[a|e] σ']; [apply Hf|done].
Qed.

Lemma quiet_for {A} (l : list A) (body : A → M unit) :
  (∀ x, quiet (body x)) → quiet (for_ l body).
Proof.
  intros Hbody. induction l as [|x l IH]; [apply quiet_ret|].
  simpl. apply quiet_bind; [done|]. by intros _.
Qed.

Lemma quiet_deref l : quiet (deref l).
Proof.
  unfold deref. apply quiet_bind; [|intros; apply quiet_ret].
  intros σ. unfold load. by case_match.
Qed.

Lemma numpy_still {A} why (o : option A) : raises_here (numpy why o) = false.
Proof. by destruct o. Qed.

Lemma np_iadd_still a x : raises_here (np_iadd a x) = false.
Proof. unfold np_iadd. apply still_bind; [apply numpy_still|done]. Qed.

Lemma np_zeros_like_still v : raises_here (np_zeros_like asarray v) = false.
Proof.
  destruct v; simpl; try done; (apply still_bind; [apply numpy_still|done]).
Qed.

Lemma quiet_iadd result x : quiet (iadd result x).
Proof.
  unfold iadd. apply quiet_bind; [apply quiet_deref|]. intros v.
  destruct v; try (by apply quiet_raise).
  apply quiet_bind; [apply quiet_lift, np_iadd_still|]. by intros a' σ.
Qed.

Lemma deref_run_any σ l o :
  σ !! l = Some o →
  deref l σ = (Ok (match o with OValue v => v | _ => VObject l end), σ).
Proof. intros H. unfold deref, load. rewrite run_bind, H. reflexivity. Qed.

(** The loop of [Laplacian.__call__], with the accumulator in the cell
    allocated last: it fails only inside a differentiator or inside the
    in-place addition. *)
Lemma Laplacian_loop_below σ f o parts acc :
  σ !! f = Some o →
  fails_only_below
    (for_ parts (λ part,
       fv ← deref f;
       x ← call part fv;
       iadd (length σ) x) (σ ++ [OValue (VArray acc)])).1 = true.
Proof.
  intros Hf. revert acc. induction parts as [|part parts IH]; intros acc; [done|].
  simpl. rewrite run_bind.
  run (deref_run_any _ _ _ (lookup_old _ _ _ _ Hf)).
  rewrite run_bind. unfold call at 1, lift at 1.
  destruct (part _) as [x|why]; [|done]. cbn [foreign]. cbv beta iota.
  unfold iadd at 1.
  run (deref_run _ _ _ (lookup_fresh σ _)).
  rewrite run_bind. unfold lift at 1.
  destruct (np_iadd acc x) as [a'|e] eqn:Hadd.
  - cbv beta iota. unfold store at 1. cbv beta iota.
    rewrite insert_fresh. apply IH.
  - cbv beta iota. simpl. unfold np_iadd in Hadd.
    destruct (broadcast_to x (shape acc)); simpl in Hadd; by simplify_eq.
Qed.

(** C10. [Laplacian.__call__] has no [raise] statement: for every [self]
    and [f], a call never ends in a [TypeError] or [ValueError] raised by
    vector.py. On a [Laplacian] object and an existing argument, a call
    that fails does so inside numpy ([np.zeros_like], the in-place
    addition) or inside a differentiator. *)
Theorem Laplacian_call_validates_nothing σ self f :
  raises_here (Laplacian_call asarray self f σ).1 = false
  ∧ (∀ lp o, σ !! self = Some (OLaplacian lp) → σ !! f = Some o →
       fails_only_below (Laplacian_call asarray self f σ).1 = true).
Proof.
  split.
  - revert σ. change (quiet (Laplacian_call asarray self f)).
    unfold Laplacian_call.
    apply quiet_bind; [apply quiet_deref|]. intros fv.
    apply quiet_bind; [apply quiet_lift, np_zeros_like_still|]. intros z.
    apply quiet_bind; [by intros σ|]. intros laplace_f.
    apply quiet_bind.
    { unfold getattr_parts. apply quiet_bind; [intros σ; unfold load; by case_match|].
      intros [| |]; by (apply quiet_ret || apply quiet_raise). }
    intros parts. apply quiet_bind; [|intros; apply quiet_ret].
    apply quiet_for. intros part.
    apply quiet_bind; [apply quiet_deref|]. intros ?.
    apply quiet_bind; [apply quiet_lift, still_foreign|]. intros ?.
    apply quiet_iadd.
  - intros lp o Hself Hf. unfold Laplacian_call.
    run (deref_run_any _ _ _ Hf).
    rewrite run_bind. unfold lift at 1.
    destruct (np_zeros_like asarray _) as [z|e] eqn:Hz.
    + cbv beta iota. run alloc_run.
      run (getattr_parts_run _ _ _ (lookup_old _ _ _ _ Hself)).
      rewrite run_bind.
      pose proof (Laplacian_loop_below σ f o (_parts lp) z Hf) as Hloop.
      destruct (for_ _ _ _) as [[[]|e] σ']; [done|]. by simpl in *.
    + cbv beta iota. simpl.
      destruct (match o with OValue v => v | _ => VObject f end);
        simpl in Hz; simplify_eq;
        destruct (asarray _); simpl in Hz; by simplify_eq.
Qed.

End properties.

(** *** What the shape check of [Divergence.__call__] rejects *)

Lemma quiet_load l : quiet (load l).
Proof. intros σ. unfold load. by case_match. Qed.

Lemma quiet_shape_of f : quiet (shape_of f).
Proof.
  unfold shape_of. apply quiet_bind; [apply quiet_deref|].
  intros v. destruct v; by (apply quiet_ret || apply quiet_raise).
Qed.

Lemma quiet_getattr_ndims self : quiet (getattr_ndims self).
Proof.
  unfold getattr_ndims. apply quiet_bind; [apply quiet_load|].
  intros [| op |]; try (by apply quiet_raise).
  destruct (ndims op); by (apply quiet_ret || apply quiet_raise).
Qed.

Lemma quiet_component self k : quiet (component self k).
Proof.
  unfold component. apply quiet_bind; [apply quiet_load|].
  intros [| op |]; try (by apply quiet_raise).
  destruct (components op) as [ds|]; [|by apply quiet_raise].
  destruct (ds !! k); by (apply quiet_ret || apply quiet_raise).
Qed.

Lemma quiet_subscript f k : quiet (subscript f k).
Proof.
  unfold subscript. apply quiet_bind; [apply quiet_deref|].
  intros v. destruct v as [| ? | ? | l | l | a | ?]; try (by apply quiet_raise).
  - destruct (l !! k); by (apply quiet_ret || apply quiet_raise).
  - destruct (l !! k); by (apply quiet_ret || apply quiet_raise).
  - apply quiet_lift. unfold getitem.
    destruct (shape a); [done|]. by destruct (decide _).
Qed.

Lemma quiet_call d v : quiet (call d v).
Proof. apply quiet_lift, still_foreign. Qed.


(** ** The operators on the sample grids *)

Example init_h2 :
  VectorOperator_init sample_wrap sample_FinDiff new_instance kwargs_h2 = Ok operator2.
Proof. vm_compute. reflexivity. Qed.

Example init_h3 :
  Curl_init sample_wrap sample_FinDiff new_instance kwargs_h3 = Ok operator3.
Proof. vm_compute. reflexivity. Qed.

Example init_laplacian2 :
  Laplacian_init sample_wrap sample_FinDiff (Some (VList [VFloat 1; VFloat 1])) None
  = Ok laplacian2.
Proof. vm_compute. reflexivity. Qed.

(** The gradient of [x * y] is [(y, x)]. *)
Example gradient_of_xy :
  gradient_xy = [NdArray [3; 3] [0; 1; 2; 0; 1; 2; 0; 1; 2]%float;
                 NdArray [3; 3] [0; 0; 0; 1; 1; 1; 2; 2; 2]%float].
Proof. reflexivity. Qed.

(** Floating-point addition is not associative: the order in which the
    loop of [Divergence.__call__] adds the derivatives shows in the sum. *)
Example accumulation_order_matters :
  let big := NdArray [1] [1e16%float] in
  let one := NdArray [1] [1%float] in
  let neg := NdArray [1] [(-1e16)%float] in
  data (foldl plus (np_zeros [1]) [big; one; neg]) = [0%float]
  ∧ data (foldl plus (np_zeros [1]) [big; neg; one]) = [1%float].
Proof. split; vm_compute; reflexivity. Qed.

(** C1: a counterexample. [Gradient()] without any keyword returns an
    object with no attribute set, and a constructor given both ["h"] and
    ["coords"] returns an operator with the dimension of the coordinates;
    neither call raises. *)
Lemma construction_accepts_neither_and_both :
  Gradient_init sample_wrap sample_FinDiff new_instance ∅ = Ok new_instance
  ∧ ndims <$> VectorOperator_init sample_wrap sample_FinDiff new_instance kwargs_both
    = Ok (Some 1).
Proof. split; vm_compute; reflexivity. Qed.

(** C1 on the empty keyword arguments. *)
Lemma VectorOperator_init_checks_nothing_witness :
  ((∅ : gmap string value) !! "h" = None ∧ (∅ : gmap string value) !! "coords" = None)
  ∧ VectorOperator_init sample_wrap sample_FinDiff new_instance ∅ = Ok new_instance
  ∧ Curl_init sample_wrap sample_FinDiff new_instance ∅ = Raise (AttributeError "ndims").
Proof.
  split; [split; reflexivity|]. split.
  - apply (proj1 (VectorOperator_init_checks_nothing sample_wrap sample_FinDiff));
      reflexivity.
  - apply (proj1 (proj2 (VectorOperator_init_checks_nothing sample_wrap sample_FinDiff)));
      reflexivity.
Defined.

(** C3 on the non-uniform grid [coords32]: two coordinate arrays, two
    differentiators. *)
Lemma coords_dimension_and_components_witness :
  (kwargs_coords !! "h" = None ∧ kwargs_coords !! "coords" = Some coords32
   ∧ get_dimension coords32 = Ok 2)
  ∧ VectorOperator_init sample_wrap sample_FinDiff new_instance kwargs_coords
    = Ok {| h := None; ndims := Some 2;
            components := Some [along 0 2 (d1_at (nonuniform [0; 1; 3]%float));
                                along 1 2 (d1_at (nonuniform [0; 2]%float))] |}.
Proof.
  split; [repeat split; reflexivity|].
  apply (proj1 (proj2 (proj2 (proj2
           (coords_dimension_and_components sample_wrap sample_FinDiff))))
         kwargs_coords coords32); [reflexivity..|].
  intros k d Hd. destruct k as [|[|k]]; simpl in Hd; simplify_eq; reflexivity.
Defined.

(** C4 on [Curl(h=[1.0, 1.0])]. *)
Lemma Curl_init_three_dimensions_witness :
  (VectorOperator_init sample_wrap sample_FinDiff new_instance kwargs_h2 = Ok operator2
   ∧ ndims operator2 = Some 2)
  ∧ Curl_init sample_wrap sample_FinDiff new_instance kwargs_h2
    = Raise (ValueError "Curl operation is only defined in 3 dimensions. 2 were given.").
Proof.
  assert (VectorOperator_init sample_wrap sample_FinDiff new_instance kwargs_h2
          = Ok operator2) as Hinit by (vm_compute; reflexivity).
  split; [by split|].
  apply (proj1 (proj2 (Curl_init_three_dimensions sample_wrap sample_FinDiff
                         new_instance kwargs_h2 operator2 2 Hinit eq_refl))).
  lia.
Defined.

(** C6 on [field_xy]: the stack of [y] and [x]. *)
Lemma Gradient_call_stack_witness :
  let σ := [OVectorOperator operator2; OValue (VArray field_xy)] in
  differentiates [along 0 2 (d1_at (uniform 1)); along 1 2 (d1_at (uniform 1))]
    (λ _, VArray field_xy) [3; 3] gradient_xy
  ∧ Gradient_call 0 1 σ
    = (Ok 2, σ ++ [OValue (VArray (NdArray [2; 3; 3]
                      [0; 1; 2; 0; 1; 2; 0; 1; 2; 0; 0; 0; 1; 1; 1; 2; 2; 2]%float))]).
Proof.
  intros σ.
  assert (differentiates [along 0 2 (d1_at (uniform 1)); along 1 2 (d1_at (uniform 1))]
            (λ _, VArray field_xy) [3; 3] gradient_xy) as Hxs.
  { split; [reflexivity|]. intros k d x Hd Hx.
    destruct k as [|[|k]]; simpl in Hd, Hx; simplify_eq;
      (split; [|split]; vm_compute; reflexivity). }
  split; [exact Hxs|].
  apply (Gradient_call_stack σ 0 1 operator2 field_xy 2 _ gradient_xy
           eq_refl eq_refl eq_refl eq_refl eq_refl eq_refl Hxs).
Defined.

(** C7 on [field_position]: the divergence of [(x, y)] is 2. *)
Lemma Divergence_call_accumulate_witness :
  let σ := [OVectorOperator operator2; OValue (VArray field_position)] in
  differentiates [along 0 2 (d1_at (uniform 1)); along 1 2 (d1_at (uniform 1))]
    (λ k, as_value (row field_position k)) [3; 3] derivatives_position
  ∧ Divergence_call 0 1 σ
    = (Ok 2, σ ++ [OValue (VArray (NdArray [3; 3] [2; 2; 2; 2; 2; 2; 2; 2; 2]%float))]).
Proof.
  intros σ.
  assert (differentiates [along 0 2 (d1_at (uniform 1)); along 1 2 (d1_at (uniform 1))]
            (λ k, as_value (row field_position k)) [3; 3] derivatives_position) as Hxs.
  { split; [reflexivity|]. intros k d x Hd Hx.
    destruct k as [|[|k]]; simpl in Hd, Hx; simplify_eq;
      (split; [|split]; vm_compute; reflexivity). }
  split; [exact Hxs|].
  apply (Divergence_call_accumulate σ 0 1 operator2 field_position 2 [3; 3] _
           derivatives_position eq_refl eq_refl eq_refl eq_refl eq_refl eq_refl Hxs).
Defined.

(** The differentiators of [operator3] on the components of [field_yzx]. *)
Lemma yields_derivative_yzx p c :
  p < 3 → c < 3 →
  yields (along p 2 (d1_at (uniform 1))) (as_value (row field_yzx c)) [2; 2; 2]
    (derivative_yzx p c).
Proof.
  intros Hp Hc.
  destruct p as [|[|[|p]]]; [| | |lia];
    (destruct c as [|[|[|c]]]; [| | |lia]);
    (split; [|split]; vm_compute; reflexivity).
Defined.

(** C5 on [field_yzx]: the curl of [(y, z, x)] is [(-1, -1, -1)]. *)
Lemma Curl_call_rows_witness :
  let σ := [OVectorOperator operator3; OValue (VArray field_yzx)] in
  ∃ r,
    Curl_call 0 1 σ = (Ok 2, σ ++ [OValue (VArray r)])
    ∧ shape r = [3; 2; 2; 2]
    ∧ array_equal (row r 0) (NdArray [2; 2; 2] (replicate 8 (-1)%float))
    ∧ array_equal (row r 1) (NdArray [2; 2; 2] (replicate 8 (-1)%float))
    ∧ array_equal (row r 2) (NdArray [2; 2; 2] (replicate 8 (-1)%float)).
Proof.
  intros σ.
  destruct (Curl_call_rows σ 0 1 operator3 field_yzx [2; 2; 2] _ _ _
              (derivative_yzx 1 2) (derivative_yzx 2 1) (derivative_yzx 2 0)
              (derivative_yzx 0 2) (derivative_yzx 0 1) (derivative_yzx 1 0)
              eq_refl eq_refl eq_refl eq_refl eq_refl
              (yields_derivative_yzx 1 2 ltac:(lia) ltac:(lia))
              (yields_derivative_yzx 2 1 ltac:(lia) ltac:(lia))
              (yields_derivative_yzx 2 0 ltac:(lia) ltac:(lia))
              (yields_derivative_yzx 0 2 ltac:(lia) ltac:(lia))
              (yields_derivative_yzx 0 1 ltac:(lia) ltac:(lia))
              (yields_derivative_yzx 1 0 ltac:(lia) ltac:(lia)))
    as (r & Hrun & Hshape & _ & _ & _ & H0 & H1 & H2).
  exists r. split; [exact Hrun|]. split; [exact Hshape|].
  split; [exact H0|]. split; [exact H1|exact H2].
Defined.

(** C8 on [field_squares]: the Laplacian of [x^2 + y^2] is 4. *)
Lemma Laplacian_sums_second_derivatives_witness :
  let σ := [OLaplacian laplacian2; OValue (VArray field_squares)] in
  differentiates (_parts laplacian2) (λ _, VArray field_squares) [3; 3]
    second_derivatives_squares
  ∧ Laplacian_init sample_wrap sample_FinDiff (Some (VList [VFloat 1; VFloat 1])) None
    = Ok laplacian2
  ∧ Laplacian_call sample_asarray 0 1 σ
    = (Ok 2, σ ++ [OValue (VArray (NdArray [3; 3] [4; 4; 4; 4; 4; 4; 4; 4; 4]%float))]).
Proof.
  intros σ.
  assert (differentiates (_parts laplacian2) (λ _, VArray field_squares) [3; 3]
            second_derivatives_squares) as Hxs.
  { split; [reflexivity|]. intros k d x Hd Hx.
    destruct k as [|[|k]]; simpl in Hd, Hx; simplify_eq;
      (split; [|split]; vm_compute; reflexivity). }
  split; [exact Hxs|]. split.
  - apply (proj1 (proj2 (Laplacian_sums_second_derivatives
                           sample_wrap sample_FinDiff sample_asarray))
             (Some (VList [VFloat 1; VFloat 1])) None (NdArray [2] [1; 1]%float) 2);
      [reflexivity..|].
    intros k d Hd. destruct k as [|[|k]]; simpl in Hd; simplify_eq; reflexivity.
  - apply (proj2 (proj2 (Laplacian_sums_second_derivatives
                           sample_wrap sample_FinDiff sample_asarray))
             σ 0 1 laplacian2 field_squares second_derivatives_squares
             eq_refl eq_refl Hxs).
Defined.

(** C10 on an array with one axis less than the operator has: the call
    fails inside the first differentiator. *)
Lemma Laplacian_call_validates_nothing_witness :
  let σ := [OLaplacian laplacian2; OValue (VArray (NdArray [2] [1; 2]%float))] in
  (σ !! 0 = Some (OLaplacian laplacian2)
   ∧ σ !! 1 = Some (OValue (VArray (NdArray [2] [1; 2]%float))))
  ∧ (Laplacian_call sample_asarray 0 1 σ).1 = Raise (ForeignError "too few grid points")
  ∧ fails_only_below (Laplacian_call sample_asarray 0 1 σ).1 = true.
Proof.
  intros σ. split; [by split|]. split; [vm_compute; reflexivity|].
  apply (proj2 (Laplacian_call_validates_nothing sample_asarray σ 0 1)
           laplacian2 _ eq_refl eq_refl).
Defined.

(** The uniform grid [h=[1.0, 1.0]]. *)
Lemma spacing_dimension_and_components_witness :
  (kwargs_h2 !! "h" = Some (VList [VFloat 1; VFloat 1]) ∧ kwargs_h2 !! "coords" = None)
  ∧ VectorOperator_init sample_wrap sample_FinDiff new_instance kwargs_h2 = Ok operator2.
Proof.
  split; [by split|].
  apply (spacing_dimension_and_components sample_wrap sample_FinDiff new_instance
           kwargs_h2 (VList [VFloat 1; VFloat 1]) (NdArray [2] [1; 1]%float) 2);
    [reflexivity..|].
  intros k d Hd. destruct k as [|[|k]]; simpl in Hd; simplify_eq; reflexivity.
Defined.


(** C2: what the code does on a field that is not a vector field of the
    operator's dimensionality. The divergence on a grid of two axes,
    applied to an array of three components (rank 3, leading axis 3):
    the check lets it pass, and the call returns
    [d0(f[0]) + d1(f[1])], here 2 at every point, leaving [f[2]] unread. A list of arrays passes
    the type check and fails on [f.shape]; an array without axes fails on
    [f.shape[0]]. The same check stands in [Curl.__call__]. *)
Theorem shape_check_accepts_mismatched_fields :
  Divergence_call 0 1 [OVectorOperator operator2; OValue (VArray field_three_components)]
  = (Ok 2, [OVectorOperator operator2; OValue (VArray field_three_components);
            OValue (VArray (NdArray [4; 4] (replicate 16 2%float)))])
  ∧ (Divergence_call 0 1
       [OVectorOperator operator2; OValue (VList [VArray field_xy; VArray field_xy])]).1
    = Raise (AttributeError "shape")
  ∧ (Divergence_call 0 1
       [OVectorOperator operator2; OValue (VArray (NdArray [] [1%float]))]).1
    = Raise IndexError
  ∧ (Curl_call 0 1
       [OVectorOperator operator3; OValue (VList [VArray field_xy])]).1
    = Raise (AttributeError "shape")
  ∧ (∃ r, (Curl_call 0 1
             [OVectorOperator operator3;
              OValue (VArray (NdArray [4; 3; 3; 3] (replicate 108 1%float)))]).1 = Ok r).
Proof.
  repeat split; try (vm_compute; reflexivity).
  eexists. vm_compute. reflexivity.
Qed.

(** ** Further properties of the operators *)

(** *** Computations that only read *)

Lemma run_reads {A} (m : M A) σ : reads m → m σ = ((m σ).1, σ).
Proof. intros Hm. specialize (Hm σ). by destruct (m σ) as [r σ']; simpl in *; subst. Qed.

Lemma run_reads_bind {A B} (m : M A) (f : A → M B) σ :
  reads m →
  (m ≫= f) σ = match (m σ).1 with
               | Ok a => f a σ
               | Raise e => (Raise e, σ)
               end.
Proof. intros Hm. rewrite run_bind, (run_reads m σ Hm). by destruct (m σ).1. Qed.

Lemma reads_ret {A} (a : A) : reads (mret a).
Proof. by intros σ. Qed.

Lemma reads_raise {A} e : reads (raise e : M A).
Proof. by intros σ. Qed.

Lemma reads_lift {A} (r : result A) : reads (lift r).
Proof. by intros σ. Qed.

Lemma reads_bind {A B} (m : M A) (f : A → M B) :
  reads m → (∀ a, reads (f a)) → reads (m ≫= f).
Proof.
  intros Hm Hf σ. rewrite (run_reads_bind _ _ _ Hm).
  destruct (m σ).1; [apply Hf|done].
Qed.

Lemma reads_load l : reads (load l).
Proof. intros σ. unfold load. by case_match. Qed.

Lemma reads_deref l : reads (deref l).
Proof. unfold deref. apply reads_bind; [apply reads_load|]. intros ?. apply reads_ret. Qed.

Lemma reads_shape_of f : reads (shape_of f).
Proof.
  unfold shape_of. apply reads_bind; [apply reads_deref|].
  intros v. destruct v; (apply reads_ret || apply reads_raise).
Qed.

Lemma reads_subscript f k : reads (subscript f k).
Proof.
  unfold subscript. apply reads_bind; [apply reads_deref|].
  intros v. destruct v as [| ? | ? | l | l | a | ?];
    try apply reads_raise; try apply reads_lift;
    destruct (l !! k); (apply reads_ret || apply reads_raise).
Qed.

Lemma reads_getattr_ndims self : reads (getattr_ndims self).
Proof.
  unfold getattr_ndims. apply reads_bind; [apply reads_load|].
  intros [| op |]; try apply reads_raise.
  destruct (ndims op); (apply reads_ret || apply reads_raise).
Qed.

Lemma reads_component self k : reads (component self k).
Proof.
  unfold component. apply reads_bind; [apply reads_load|].
  intros [| op |]; try apply reads_raise.
  destruct (components op) as [ds|]; [|apply reads_raise].
  destruct (ds !! k); (apply reads_ret || apply reads_raise).
Qed.

Lemma reads_getattr_parts self : reads (getattr_parts self).
Proof.
  unfold getattr_parts. apply reads_bind; [apply reads_load|].
  intros [| |]; (apply reads_ret || apply reads_raise).
Qed.

Lemma reads_call d v : reads (call d v).
Proof. apply reads_lift. Qed.

Lemma reads_view result i : reads (view result i).
Proof.
  unfold view. apply reads_bind; [apply reads_deref|].
  intros v. destruct v; (apply reads_lift || apply reads_raise).
Qed.

Lemma reads_shape_mismatch self f : reads (shape_mismatch self f).
Proof.
  unfold shape_mismatch.
  apply reads_bind; [apply reads_shape_of|]. intros s.
  apply reads_bind; [apply reads_getattr_ndims|]. intros n.
  destruct (decide _); [|apply reads_ret].
  apply reads_bind; [apply reads_shape_of|]. intros s'.
  destruct (s' !! 0); [|apply reads_raise].
  apply reads_bind; [apply reads_getattr_ndims|]. intros ?. apply reads_ret.
Qed.

Lemma reads_mapM {A B} (f : A → M B) (l : list A) :
  (∀ x, reads (f x)) → reads (mapM f l).
Proof.
  intros Hf. induction l as [|x l IH]; [apply reads_ret|].
  rewrite mapM_cons. apply reads_bind; [done|]. intros y.
  apply reads_bind; [done|]. intros ys. apply reads_ret.
Qed.

(** A list comprehension that returns has one result per element. *)
Lemma mapM_run_length {A B} (f : A → M B) (l : list A) σ ys σ' :
  mapM f l σ = (Ok ys, σ') → length ys = length l.
Proof.
  revert σ ys σ'. induction l as [|x l IH]; intros σ ys σ'.
  - intros [= <- _]. done.
  - rewrite mapM_cons, run_bind. destruct (f x σ) as [[y|e] σ1]; [|done].
    rewrite run_bind. destruct (mapM f l σ1) as [[ys'|e] σ2] eqn:Hl; [|done].
    intros [= <- _]. simpl. f_equal. by eapply IH.
Qed.

Lemma quiet_mapM {A B} (f : A → M B) (l : list A) :
  (∀ x, quiet (f x)) → quiet (mapM f l).
Proof.
  intros Hf. induction l as [|x l IH]; [apply quiet_ret|].
  rewrite mapM_cons. apply quiet_bind; [done|]. intros y.
  apply quiet_bind; [done|]. intros ys. apply quiet_ret.
Qed.

Lemma deref_value_at σ l o : σ !! l = Some o → deref l σ = (Ok (value_at l o), σ).
Proof. apply deref_run_any. Qed.

(** *** The checks of [Gradient.__call__] *)

(** [Gradient.__call__]: an argument that is not an ndarray is refused
    with [TypeError] before [self] is looked at; on an ndarray and an
    operator with [ndims = n], the call raises its [ValueError] when the
    rank is not [n], and raises through no [raise] statement when the
    rank is [n]. Both errors leave the heap as it was. *)
Theorem Gradient_call_checks σ self f :
  (∀ o, σ !! f = Some o → is_ndarray (value_at f o) = false →
     Gradient_call self f σ
     = (Raise (TypeError "Function to differentiate must be numpy.ndarray"), σ))
  ∧ (∀ op n a,
       σ !! self = Some (OVectorOperator op) → ndims op = Some n →
       σ !! f = Some (OValue (VArray a)) →
       (length (shape a) ≠ n →
        Gradient_call self f σ
        = (Raise (ValueError "Gradients can only be applied to scalar functions"), σ))
       ∧ (raises_here (Gradient_call self f σ).1 = true ↔ length (shape a) ≠ n)).
Proof.
  split.
  - intros o Hf Hv. unfold Gradient_call.
    run (deref_value_at _ _ _ Hf). by rewrite Hv.
  - intros op n a Hself Hn Hf.
    assert (Gradient_call self f σ
            = if decide (length (shape a) ≠ n) then
                (Raise (ValueError "Gradients can only be applied to scalar functions"), σ)
              else
                (getattr_ndims self ≫= λ n0,
                 mapM (λ k, component self k ≫= λ d_dxk,
                            deref f ≫= λ fv, call d_dxk fv) (seq 0 n0) ≫= λ result,
                 lift (np_array result) ≫= λ r, alloc (OValue (VArray r))) σ) as ->.
    { unfold Gradient_call. run (deref_run _ _ _ Hf).
      change (negb (is_ndarray (VArray a))) with false. cbv beta iota.
      run (shape_of_run _ _ _ Hf). run (getattr_ndims_run _ _ _ _ Hself Hn).
      by destruct (decide _). }
    destruct (decide (length (shape a) ≠ n)) as [Hne|Heq]; [by split|].
    split; [done|].
    assert (quiet (getattr_ndims self ≫= λ n0,
                 mapM (λ k, component self k ≫= λ d_dxk,
                            deref f ≫= λ fv, call d_dxk fv) (seq 0 n0) ≫= λ result,
                 lift (np_array result) ≫= λ r, alloc (OValue (VArray r)))) as Hq.
    { apply quiet_bind; [apply quiet_getattr_ndims|]. intros ?.
      apply quiet_bind.
      { apply quiet_mapM. intros k.
        apply quiet_bind; [apply quiet_component|]. intros ?.
        apply quiet_bind; [apply quiet_deref|]. intros ?. apply quiet_call. }
      intros result. apply quiet_bind; [|by intros ? ?].
      apply quiet_lift. unfold np_array. destruct result; [done|]. by destruct (decide _). }
    rewrite (Hq σ). split; [done|]. by intros ?.
Qed.

(** *** The type check of [Divergence.__call__] and [Curl.__call__] *)

(** An argument that is neither an ndarray nor a list is refused with
    [TypeError] before [self] is looked at. A list, which the check lets
    through, has no [shape]: every list ends in [AttributeError], whatever
    it holds. Both leave the heap as it was. *)
Theorem vector_field_type_check σ self f :
  (∀ o, σ !! f = Some o →
     is_ndarray (value_at f o) = false → is_list (value_at f o) = false →
     Divergence_call self f σ
     = (Raise (TypeError "Function to differentiate must be numpy.ndarray or list of numpy.ndarrays"), σ)
     ∧ Curl_call self f σ
       = (Raise (TypeError "Function to differentiate must be numpy.ndarray or list of numpy.ndarrays"), σ))
  ∧ (∀ l, σ !! f = Some (OValue (VList l)) →
       Divergence_call self f σ = (Raise (AttributeError "shape"), σ)
       ∧ Curl_call self f σ = (Raise (AttributeError "shape"), σ)).
Proof.
  split.
  - intros o Hf Hv Hl. unfold Divergence_call, Curl_call.
    rewrite !run_bind, !(deref_value_at _ _ _ Hf). cbv beta iota.
    by rewrite Hv, Hl.
  - intros l Hf. unfold Divergence_call, Curl_call.
    rewrite !run_bind, !(deref_run _ _ _ Hf). cbv beta iota.
    change (negb (is_ndarray (VList l)) && negb (is_list (VList l))) with false.
    cbv beta iota. unfold shape_mismatch, shape_of.
    rewrite !run_bind, !(deref_run _ _ _ Hf). done.
Qed.

(** *** The shape check of [Curl.__call__] *)

Lemma np_subtract_still x y : raises_here (np_subtract x y) = false.
Proof.
  unfold np_subtract.
  apply still_bind; [apply numpy_still|]. intros s.
  apply still_bind; [apply numpy_still|]. intros dx.
  apply still_bind; [apply numpy_still|]. done.
Qed.

Lemma getitem_still a k : raises_here (getitem a k) = false.
Proof. unfold getitem. destruct (shape a); [done|]. by destruct (decide _). Qed.

Lemma quiet_view result i : quiet (view result i).
Proof.
  unfold view. apply quiet_bind; [apply quiet_deref|].
  intros v. destruct v; try (by apply quiet_raise).
  apply quiet_lift, getitem_still.
Qed.

Lemma quiet_write_view result i w : quiet (write_view result i w).
Proof.
  unfold write_view. apply quiet_bind; [apply quiet_deref|].
  intros v. destruct v; try (by apply quiet_raise). by intros σ.
Qed.

Lemma quiet_curl_row self f result i p a q b :
  quiet (curl_row self f result i p a q b).
Proof.
  unfold curl_row.
  apply quiet_bind; [apply quiet_view|]. intros ?.
  apply quiet_bind; [apply quiet_component|]. intros ?.
  apply quiet_bind; [apply quiet_subscript|]. intros ?.
  apply quiet_bind; [apply quiet_call|]. intros x.
  apply quiet_bind; [apply quiet_component|]. intros ?.
  apply quiet_bind; [apply quiet_subscript|]. intros ?.
  apply quiet_bind; [apply quiet_call|]. intros y.
  apply quiet_bind; [apply quiet_lift, np_subtract_still|]. intros ?.
  apply quiet_bind; [apply quiet_lift, np_iadd_still|]. intros ?.
  apply quiet_write_view.
Qed.

(** On an array with at least one axis, [Curl.__call__] raises its
    [ValueError] exactly when the rank is not [ndims + 1] and, also, the
    leading axis is not [ndims] long; the error leaves the heap as it
    was. *)
Theorem Curl_call_rejects_iff σ self f op a n s0 s :
  σ !! self = Some (OVectorOperator op) → ndims op = Some n →
  σ !! f = Some (OValue (VArray a)) → shape a = s0 :: s →
  (raises_here (Curl_call self f σ).1 = true ↔ length (shape a) ≠ n + 1 ∧ s0 ≠ n)
  ∧ (length (shape a) ≠ n + 1 → s0 ≠ n →
     Curl_call self f σ
     = (Raise (ValueError "Curl can only be applied to vector functions of the three dimensions"), σ)).
Proof.
  intros Hself Hn Hf Hs. unfold Curl_call.
  run (deref_run _ _ _ Hf).
  change (negb (is_ndarray (VArray a)) && negb (is_list (VArray a))) with false.
  cbv beta iota.
  run (shape_mismatch_run _ _ _ _ _ _ Hself Hn Hf).
  assert (∀ σ', raises_here
            ((shape_of f ≫= λ s1,
              alloc (OValue (VArray (np_zeros s1))) ≫= λ result,
              curl_row self f result 0 1 2 2 1 ≫= λ _,
              curl_row self f result 1 2 0 0 2 ≫= λ _,
              curl_row self f result 2 0 1 1 0 ≫= λ _, mret result) σ').1 = false)
    as Hrest.
  { apply quiet_bind; [apply quiet_shape_of|]. intros ?.
    apply quiet_bind; [by intros ?|]. intros result.
    apply quiet_bind; [apply quiet_curl_row|]. intros _.
    apply quiet_bind; [apply quiet_curl_row|]. intros _.
    apply quiet_bind; [apply quiet_curl_row|]. intros _. apply quiet_ret. }
  rewrite Hs in *. simpl length. simpl lookup.
  destruct (decide (S (length s) ≠ n + 1)) as [Hrank|Hrank].
  - cbv beta iota. destruct (decide (s0 = n)) as [->|Hlead].
    + rewrite bool_decide_eq_false_2 by (intros ?; done).
      rewrite Hrest. split; [|done]. split; [done|]. by intros [_ ?].
    + rewrite bool_decide_eq_true_2 by done. by split.
  - cbv beta iota. rewrite Hrest. split; [|done]. split; [done|]. by intros [? _].
Qed.

(** A field of fewer than three components on a grid of three axes: the
    rank is right, so the check passes; the call allocates its zeros and
    then fails with [IndexError] on a component that is not there, before
    any differentiator is applied. *)
Theorem Curl_call_too_few_components σ self f op a m s d0 d1 d2 :
  σ !! self = Some (OVectorOperator op) →
  ndims op = Some 3 → components op = Some [d0; d1; d2] →
  σ !! f = Some (OValue (VArray a)) →
  shape a = m :: s → length s = 3 → m < 3 →
  Curl_call self f σ = (Raise IndexError, σ ++ [OValue (VArray (np_zeros (m :: s)))]).
Proof.
  intros Hself Hn Hds Hf Hs Hrank Hm. unfold Curl_call.
  run (deref_run _ _ _ Hf).
  change (negb (is_ndarray (VArray a)) && negb (is_list (VArray a))) with false.
  cbv beta iota.
  run (shape_mismatch_run _ _ _ _ _ _ Hself Hn Hf).
  rewrite Hs. simpl length. rewrite decide_False by lia. cbv beta iota.
  run (shape_of_run _ _ _ Hf). run alloc_run. rewrite Hs.
  rewrite run_bind. unfold curl_row at 1.
  destruct m as [|m].
  - rewrite run_bind. unfold view at 1.
    run (deref_run _ _ _ (lookup_fresh σ _)). reflexivity.
  - assert (0 < S m) as H0 by lia.
    run (view_run _ _ (np_zeros (S m :: s)) (S m) s 0 (lookup_fresh σ _) eq_refl H0).
    run (component_run _ _ _ _ 1 d1 (lookup_old _ _ _ _ Hself) Hds eq_refl).
    rewrite run_bind. unfold subscript at 1.
    run (deref_run _ _ _ (lookup_old _ _ _ _ Hf)).
    unfold getitem. rewrite Hs. rewrite decide_False by lia. reflexivity.
Qed.

(** *** What a call that returns has done *)

Lemma keeps_reads {A} σ0 s (m : M A) : reads m → keeps σ0 s m.
Proof. intros Hm σ Hσ. by rewrite Hm. Qed.

Lemma keeps_bind {A B} σ0 s (m : M A) (f : A → M B) :
  keeps σ0 s m → (∀ a, keeps σ0 s (f a)) → keeps σ0 s (m ≫= f).
Proof.
  intros Hm Hf σ Hσ. rewrite run_bind. specialize (Hm σ Hσ).
  destruct (m σ) as [[a|e] σ']; [by apply Hf|done].
Qed.

Lemma keeps_for {A} σ0 s (l : list A) (body : A → M unit) :
  (∀ x, keeps σ0 s (body x)) → keeps σ0 s (for_ l body).
Proof.
  intros Hbody. induction l as [|x l IH]; [by intros σ Hσ|].
  simpl. apply keeps_bind; [done|]. by intros _.
Qed.

Lemma np_iadd_shape a x a' : np_iadd a x = Ok a' → shape a' = shape a.
Proof.
  unfold np_iadd. destruct (broadcast_to x (shape a)); simpl; [|done].
  by intros [= <-].
Qed.

(** [result += x] on the cell allocated last keeps the shape of the array
    in it. *)
Lemma keeps_iadd σ0 s x : keeps σ0 s (iadd (length σ0) x).
Proof.
  intros σ (acc & -> & Hs). unfold iadd.
  run (deref_run _ _ _ (lookup_fresh σ0 _)).
  rewrite run_bind. unfold lift at 1.
  destruct (np_iadd acc x) as [a'|e] eqn:Hadd; cbv beta iota.
  - unfold store. cbn [snd]. rewrite insert_fresh. exists a'.
    split; [done|]. by rewrite (np_iadd_shape _ _ _ Hadd).
  - by exists acc.
Qed.

Lemma keeps_write_view σ0 s i w : keeps σ0 s (write_view (length σ0) i w).
Proof.
  intros σ (acc & -> & Hs). unfold write_view.
  run (deref_run _ _ _ (lookup_fresh σ0 _)).
  unfold store. cbn [snd]. rewrite insert_fresh. by exists (set_row acc i w).
Qed.

Lemma keeps_curl_row σ0 s self f i p a q b :
  keeps σ0 s (curl_row self f (length σ0) i p a q b).
Proof.
  unfold curl_row.
  apply keeps_bind; [apply keeps_reads, reads_view|]. intros ?.
  apply keeps_bind; [apply keeps_reads, reads_component|]. intros ?.
  apply keeps_bind; [apply keeps_reads, reads_subscript|]. intros ?.
  apply keeps_bind; [apply keeps_reads, reads_call|]. intros ?.
  apply keeps_bind; [apply keeps_reads, reads_component|]. intros ?.
  apply keeps_bind; [apply keeps_reads, reads_subscript|]. intros ?.
  apply keeps_bind; [apply keeps_reads, reads_call|]. intros ?.
  apply keeps_bind; [apply keeps_reads, reads_lift|]. intros ?.
  apply keeps_bind; [apply keeps_reads, reads_lift|]. intros ?.
  apply keeps_write_view.
Qed.

(** Reading the steps of a call backwards. *)
Lemma deref_inv σ l v : (deref l σ).1 = Ok v → ∃ o, σ !! l = Some o ∧ v = value_at l o.
Proof.
  unfold deref, load. rewrite run_bind.
  destruct (_ !! _) as [o|] eqn:Hl; [|done]. intros [= <-]. eauto.
Qed.

Lemma shape_of_inv σ f s :
  (shape_of f σ).1 = Ok s → ∃ a, σ !! f = Some (OValue (VArray a)) ∧ shape a = s.
Proof.
  unfold shape_of. rewrite (run_reads_bind _ _ _ (reads_deref f)).
  destruct (deref f σ).1 as [v|] eqn:Hv; [|done].
  apply deref_inv in Hv as (o & Ho & ->).
  destruct o as [v| |]; try done. destruct v; try done.
  intros [= <-]. eauto.
Qed.

Lemma getattr_ndims_inv σ self n :
  (getattr_ndims self σ).1 = Ok n →
  ∃ op, σ !! self = Some (OVectorOperator op) ∧ ndims op = Some n.
Proof.
  unfold getattr_ndims, load. rewrite run_bind.
  destruct (_ !! _) as [o|] eqn:Hl; [|done].
  destruct o as [| op |]; try done. cbv beta iota.
  destruct (ndims op) as [n'|] eqn:Hn; [|done]. intros [= <-]. eauto.
Qed.

Lemma shape_mismatch_inv σ self f :
  (shape_mismatch self f σ).1 = Ok false →
  ∃ a op n, σ !! f = Some (OValue (VArray a))
    ∧ σ !! self = Some (OVectorOperator op) ∧ ndims op = Some n
    ∧ (length (shape a) = n + 1 ∨ shape a !! 0 = Some n).
Proof.
  intros H.
  assert (∃ s, (shape_of f σ).1 = Ok s) as [s Hs].
  { unfold shape_mismatch in H. rewrite (run_reads_bind _ _ _ (reads_shape_of f)) in H.
    destruct (shape_of f σ).1; [eauto|done]. }
  assert (∃ n, (getattr_ndims self σ).1 = Ok n) as [n Hn].
  { unfold shape_mismatch in H. rewrite (run_reads_bind _ _ _ (reads_shape_of f)), Hs in H.
    rewrite (run_reads_bind _ _ _ (reads_getattr_ndims self)) in H.
    destruct (getattr_ndims self σ).1; [eauto|done]. }
  apply shape_of_inv in Hs as (a & Hf & <-).
  apply getattr_ndims_inv in Hn as (op & Hself & Hn).
  exists a, op, n. repeat split; try done.
  rewrite (shape_mismatch_run _ _ _ _ _ _ Hself Hn Hf) in H. simpl in H.
  destruct (decide (length (shape a) ≠ n + 1)) as [Hne|Heq%dec_stable]; [|by left].
  destruct (shape a !! 0) as [s0|]; [|done].
  injection H as H. apply bool_decide_eq_false_1, dec_stable in H. right. by subst.
Qed.

Lemma np_array_leading l g : np_array l = Ok g → shape g !! 0 = Some (length l).
Proof.
  unfold np_array. destruct l as [|a l]; [by intros [= <-]|].
  destruct (decide _); [|done]. by intros [= <-].
Qed.

(** [Gradient.__call__] allocates once, as its last step: a call that
    raises leaves the heap as it was; a call that returns was given an
    ndarray whose rank is [ndims], and returns the one new cell, an array
    whose leading axis has length [ndims], whatever the differentiators
    returned. *)
Theorem Gradient_call_outcome σ self f :
  (∀ e σ', Gradient_call self f σ = (Raise e, σ') → σ' = σ)
  ∧ (∀ r σ', Gradient_call self f σ = (Ok r, σ') →
       r = length σ
       ∧ ∃ a op n g,
           σ !! f = Some (OValue (VArray a))
           ∧ σ !! self = Some (OVectorOperator op) ∧ ndims op = Some n
           ∧ length (shape a) = n
           ∧ σ' = σ ++ [OValue (VArray g)] ∧ shape g !! 0 = Some n).
Proof.
  assert (∀ out σ', Gradient_call self f σ = (out, σ') →
            match out with
            | Raise _ => σ' = σ
            | Ok r =>
                r = length σ
                ∧ ∃ a op n g,
                    σ !! f = Some (OValue (VArray a))
                    ∧ σ !! self = Some (OVectorOperator op) ∧ ndims op = Some n
                    ∧ length (shape a) = n
                    ∧ σ' = σ ++ [OValue (VArray g)] ∧ shape g !! 0 = Some n
            end) as H.
  { intros out σ'. unfold Gradient_call.
    rewrite (run_reads_bind _ _ _ (reads_deref f)).
    destruct (deref f σ).1 as [fv|] eqn:Hfv; [|by intros [= <- <-]].
    destruct (negb (is_ndarray fv)); [by intros [= <- <-]|].
    rewrite (run_reads_bind _ _ _ (reads_shape_of f)).
    destruct (shape_of f σ).1 as [s|] eqn:Hs; [|by intros [= <- <-]].
    rewrite (run_reads_bind _ _ _ (reads_getattr_ndims self)).
    destruct (getattr_ndims self σ).1 as [n|] eqn:Hn; [|by intros [= <- <-]].
    destruct (decide (length s ≠ n)) as [|Hrank%dec_stable]; [by intros [= <- <-]|].
    rewrite (run_reads_bind _ _ _ (reads_getattr_ndims self)), Hn.
    match goal with |- context [mapM ?body (seq 0 n)] =>
      assert (reads (mapM body (seq 0 n))) as Hreads;
        [|rewrite (run_reads_bind _ _ _ Hreads);
          pose proof (run_reads _ σ Hreads) as Hrun;
          destruct (mapM body (seq 0 n) σ).1 as [result|] eqn:Hres] end.
    { apply reads_mapM. intros k.
      apply reads_bind; [apply reads_component|]. intros ?.
      apply reads_bind; [apply reads_deref|]. intros ?. apply reads_call. }
    2: by intros [= <- <-].
    apply mapM_run_length in Hrun. rewrite length_seq in Hrun.
    rewrite run_bind. unfold lift at 1.
    destruct (np_array result) as [g|] eqn:Hg; [|by intros [= <- <-]].
    cbv beta iota. rewrite alloc_run. intros [= <- <-].
    split; [done|].
    apply shape_of_inv in Hs as (a & Hf & <-).
    apply getattr_ndims_inv in Hn as (op & Hself & Hn).
    exists a, op, n, g. repeat split; try done.
    rewrite (np_array_leading _ _ Hg). by rewrite Hrun. }
  split.
  - intros e σ' Hrun. apply (H _ _ Hrun).
  - intros r σ' Hrun. apply (H _ _ Hrun).
Qed.

(** [Divergence.__call__]: a call that returns was given an ndarray that
    got the rank or the leading axis right, and returns the one new cell,
    an array of the shape [f.shape[1:]], whatever the differentiators
    returned. *)
Theorem Divergence_call_outcome σ self f r σ' :
  Divergence_call self f σ = (Ok r, σ') →
  r = length σ
  ∧ ∃ a op n res,
      σ !! f = Some (OValue (VArray a))
      ∧ σ !! self = Some (OVectorOperator op) ∧ ndims op = Some n
      ∧ (length (shape a) = n + 1 ∨ shape a !! 0 = Some n)
      ∧ σ' = σ ++ [OValue (VArray res)] ∧ shape res = tail (shape a).
Proof.
  unfold Divergence_call.
  rewrite (run_reads_bind _ _ _ (reads_deref f)).
  destruct (deref f σ).1 as [fv|] eqn:Hfv; [|done].
  destruct (negb (is_ndarray fv) && negb (is_list fv)); [done|].
  rewrite (run_reads_bind _ _ _ (reads_shape_mismatch self f)).
  destruct (shape_mismatch self f σ).1 as [[|]|] eqn:Hbad; try done.
  apply shape_mismatch_inv in Hbad as (a & op & n & Hf & Hself & Hn & Hcheck).
  run (shape_of_run _ _ _ Hf). run alloc_run.
  set (σ1 := σ ++ [OValue (VArray (np_zeros (tail (shape a))))]).
  match goal with |- ?rest σ1 = _ → _ =>
    assert (holds_result σ (tail (shape a)) (rest σ1).2) as Hkeep end.
  { match goal with |- holds_result _ _ (?rest σ1).2 =>
      assert (keeps σ (tail (shape a)) rest) as Hrest end.
    { apply keeps_bind; [apply keeps_reads, reads_getattr_ndims|]. intros n0.
      apply keeps_bind; [|intros; apply keeps_reads, reads_ret].
      apply keeps_for. intros k.
      apply keeps_bind; [apply keeps_reads, reads_component|]. intros ?.
      apply keeps_bind; [apply keeps_reads, reads_subscript|]. intros ?.
      apply keeps_bind; [apply keeps_reads, reads_call|]. intros ?.
      apply keeps_iadd. }
    apply Hrest. by exists (np_zeros (tail (shape a))). }
  intros Hrun. rewrite Hrun in Hkeep. simpl in Hkeep.
  destruct Hkeep as (res & -> & Hres).
  revert Hrun. rewrite (run_reads_bind _ _ _ (reads_getattr_ndims self)).
  destruct (getattr_ndims self σ1).1; [|done].
  rewrite run_bind. destruct (for_ _ _ σ1) as [[[]|e] σ2]; [|done].
  intros [= <- _]. split; [done|]. by exists a, op, n, res.
Qed.

(** [Curl.__call__]: a call that returns was given an ndarray that got the
    rank or the leading axis right, and returns the one new cell, an array
    of the shape of [f], whatever the differentiators returned. *)
Theorem Curl_call_outcome σ self f r σ' :
  Curl_call self f σ = (Ok r, σ') →
  r = length σ
  ∧ ∃ a op n res,
      σ !! f = Some (OValue (VArray a))
      ∧ σ !! self = Some (OVectorOperator op) ∧ ndims op = Some n
      ∧ (length (shape a) = n + 1 ∨ shape a !! 0 = Some n)
      ∧ σ' = σ ++ [OValue (VArray res)] ∧ shape res = shape a.
Proof.
  unfold Curl_call.
  rewrite (run_reads_bind _ _ _ (reads_deref f)).
  destruct (deref f σ).1 as [fv|] eqn:Hfv; [|done].
  destruct (negb (is_ndarray fv) && negb (is_list fv)); [done|].
  rewrite (run_reads_bind _ _ _ (reads_shape_mismatch self f)).
  destruct (shape_mismatch self f σ).1 as [[|]|] eqn:Hbad; try done.
  apply shape_mismatch_inv in Hbad as (a & op & n & Hf & Hself & Hn & Hcheck).
  run (shape_of_run _ _ _ Hf). run alloc_run.
  set (σ1 := σ ++ [OValue (VArray (np_zeros (shape a)))]).
  match goal with |- ?rest σ1 = _ → _ =>
    assert (holds_result σ (shape a) (rest σ1).2) as Hkeep end.
  { match goal with |- holds_result _ _ (?rest σ1).2 =>
      assert (keeps σ (shape a) rest) as Hrest end.
    { apply keeps_bind; [apply keeps_curl_row|]. intros _.
      apply keeps_bind; [apply keeps_curl_row|]. intros _.
      apply keeps_bind; [apply keeps_curl_row|]. intros _.
      apply keeps_reads, reads_ret. }
    apply Hrest. by exists (np_zeros (shape a)). }
  intros Hrun. rewrite Hrun in Hkeep. simpl in Hkeep.
  destruct Hkeep as (res & -> & Hres).
  revert Hrun.
  rewrite run_bind. destruct (curl_row _ _ _ 0 _ _ _ _ σ1) as [[[]|e] σ2]; [|done].
  rewrite run_bind. destruct (curl_row _ _ _ 1 _ _ _ _ σ2) as [[[]|e] σ3]; [|done].
  rewrite run_bind. destruct (curl_row _ _ _ 2 _ _ _ _ σ3) as [[[]|e] σ4]; [|done].
  intros [= <- _]. split; [done|]. by exists a, op, n, res.
Qed.

Lemma getattr_parts_inv σ self parts :
  (getattr_parts self σ).1 = Ok parts → ∃ lp, σ !! self = Some (OLaplacian lp).
Proof.
  unfold getattr_parts, load. rewrite run_bind.
  destruct (_ !! _) as [o|] eqn:Hl; [|done].
  destruct o as [| |lp]; try done. eauto.
Qed.

Section outcome.

Variable asarray : value → option ndarray.

(** [Laplacian.__call__]: a call that returns was made on a [Laplacian]
    object and returns the one new cell, an array of the shape that
    [np.zeros_like(f)] had: the shape of [f] when [f] is an ndarray. The
    rank of [f] and the number of differentiators are not compared. *)
Theorem Laplacian_call_outcome σ self f r σ' :
  Laplacian_call asarray self f σ = (Ok r, σ') →
  r = length σ
  ∧ ∃ o z lp res,
      σ !! f = Some o ∧ np_zeros_like asarray (value_at f o) = Ok z
      ∧ σ !! self = Some (OLaplacian lp)
      ∧ σ' = σ ++ [OValue (VArray res)] ∧ shape res = shape z
      ∧ (∀ a, o = OValue (VArray a) → shape res = shape a).
Proof.
  unfold Laplacian_call.
  rewrite (run_reads_bind _ _ _ (reads_deref f)).
  destruct (deref f σ).1 as [fv|] eqn:Hfv; [|done].
  apply deref_inv in Hfv as (o & Hf & ->).
  rewrite run_bind. unfold lift at 1.
  destruct (np_zeros_like asarray (value_at f o)) as [z|] eqn:Hz; [|done].
  cbv beta iota. run alloc_run.
  set (σ1 := σ ++ [OValue (VArray z)]).
  match goal with |- ?rest σ1 = _ → _ =>
    assert (holds_result σ (shape z) (rest σ1).2) as Hkeep end.
  { match goal with |- holds_result _ _ (?rest σ1).2 =>
      assert (keeps σ (shape z) rest) as Hrest end.
    { apply keeps_bind; [apply keeps_reads, reads_getattr_parts|]. intros parts.
      apply keeps_bind; [|intros; apply keeps_reads, reads_ret].
      apply keeps_for. intros part.
      apply keeps_bind; [apply keeps_reads, reads_deref|]. intros ?.
      apply keeps_bind; [apply keeps_reads, reads_call|]. intros ?.
      apply keeps_iadd. }
    apply Hrest. by exists z. }
  intros Hrun. rewrite Hrun in Hkeep. simpl in Hkeep.
  destruct Hkeep as (res & -> & Hres).
  revert Hrun. rewrite (run_reads_bind _ _ _ (reads_getattr_parts self)).
  destruct (getattr_parts self σ1).1 as [parts|] eqn:Hparts; [|done].
  rewrite run_bind. destruct (for_ _ _ σ1) as [[[]|e] σ2]; [|done].
  intros [= <- _]. split; [done|].
  apply getattr_parts_inv in Hparts as [lp Hself].
  apply lookup_app_Some in Hself as [Hself|[_ Hself]].
  2: { destruct (self - length σ) as [|i]; simpl in Hself; [done|]. by destruct i. }
  exists o, z, lp, res. repeat split; try done.
  intros a ->. rewrite Hres. simpl in Hz. by injection Hz as <-.
Qed.

End outcome.

(** *** Applying one operator to the result of another *)

Lemma Gradient_call_run σ self f op a n ds xs :
  σ !! self = Some (OVectorOperator op) →
  ndims op = Some n → components op = Some ds → length ds = n →
  σ !! f = Some (OValue (VArray a)) → length (shape a) = n →
  differentiates ds (λ _, VArray a) (shape a) xs →
  Gradient_call self f σ
  = (Ok (length σ),
     σ ++ [OValue (VArray (NdArray (n :: shape a) (concat (data <$> xs))))]).
Proof.
  intros Hself Hn Hds Hlen Hf Hrank Hxs.
  pose proof (differentiates_seq _ _ _ _ _ Hxs Hlen) as Hseq.
  pose proof (differentiates_Forall _ _ _ _ Hxs) as Hall.
  assert (length xs = n) as Hxn by (destruct Hxs; lia).
  unfold Gradient_call.
  run (deref_run _ _ _ Hf). change (negb (is_ndarray (VArray a))) with false.
  cbv beta iota.
  run (shape_of_run _ _ _ Hf).
  run (getattr_ndims_run _ _ _ _ Hself Hn).
  rewrite decide_False by lia.
  run (getattr_ndims_run _ _ _ _ Hself Hn).
  rewrite run_bind, (mapM_run _ (seq 0 n) xs σ); cbv beta iota.
  - rewrite run_bind. unfold lift.
    destruct xs as [|x xs].
    + simpl in Hxn. rewrite <- Hxn in *.
      apply nil_length_inv in Hrank. by rewrite Hrank.
    + rewrite (np_array_stack (shape a)); [by rewrite Hxn| |done].
      eapply Forall_impl; [done|]. by intros ? [].
  - eapply Forall2_impl; [done|]. intros k x (d & Hd & Hdx & _).
    run (component_run _ _ _ _ _ _ Hself Hds Hd).
    run (deref_run _ _ _ Hf). by apply call_run.
Qed.

Lemma Divergence_call_run σ self f op a n s ds xs :
  σ !! self = Some (OVectorOperator op) →
  ndims op = Some n → components op = Some ds → length ds = n →
  σ !! f = Some (OValue (VArray a)) → shape a = n :: s →
  differentiates ds (λ k, as_value (row a k)) s xs →
  Divergence_call self f σ
  = (Ok (length σ), σ ++ [OValue (VArray (foldl plus (np_zeros s) xs))]).
Proof.
  intros Hself Hn Hds Hlen Hf Hs Hxs.
  pose proof (differentiates_seq _ _ _ _ _ Hxs Hlen) as Hseq.
  unfold Divergence_call.
  run (deref_run _ _ _ Hf).
  change (negb (is_ndarray (VArray a)) && negb (is_list (VArray a))) with false.
  cbv beta iota.
  run (shape_mismatch_leading _ _ _ _ _ _ _ Hself Hn Hf Hs).
  run (shape_of_run _ _ _ Hf). run alloc_run.
  run (getattr_ndims_run _ _ _ _ (lookup_old _ _ _ _ Hself) Hn).
  rewrite Hs. simpl tail.
  rewrite run_bind, (for_accumulate _ s σ (seq 0 n) xs); [done| |done].
  eapply Forall2_impl; [done|]. intros k x (d & Hd & Hdx & Hsx & Hwx) acc Hacc.
  split; [done|].
  assert (k < n) as Hk by (rewrite <- Hlen; by eapply lookup_lt_Some).
  run (component_run _ _ _ _ _ _ (lookup_old _ _ _ _ Hself) Hds Hd).
  run (subscript_run _ _ _ _ _ _ (lookup_old _ _ _ _ Hf) Hs Hk).
  run (call_run _ _ _ _ Hdx).
  rewrite (iadd_run _ _ acc) by (try apply lookup_fresh; congruence).
  by rewrite insert_fresh.
Qed.

(** The divergence of a gradient: [div(grad(f))] on a grid of [n] axes.
    The gradient allocates the stack of [x_k = d_k(f)]; the divergence
    reads the [k]-th row of that stack, applies its own [k]-th
    differentiator [e_k] to it and accumulates: the second new cell holds
    [((0 + e_0(x_0)) + e_1(x_1)) + ...], an array of the shape of [f]. *)
Theorem Divergence_of_Gradient σ g dv f opg opd a n ds es xs ys :
  σ !! g = Some (OVectorOperator opg) →
  ndims opg = Some n → components opg = Some ds → length ds = n →
  σ !! dv = Some (OVectorOperator opd) →
  ndims opd = Some n → components opd = Some es → length es = n →
  σ !! f = Some (OValue (VArray a)) → length (shape a) = n →
  differentiates ds (λ _, VArray a) (shape a) xs →
  length ys = n →
  (∀ k e x y, es !! k = Some e → xs !! k = Some x → ys !! k = Some y →
     yields e (as_value x) (shape a) y) →
  (Gradient_call g f ≫= λ r, Divergence_call dv r) σ
  = (Ok (S (length σ)),
     σ ++ [OValue (VArray (NdArray (n :: shape a) (concat (data <$> xs))));
           OValue (VArray (foldl plus (np_zeros (shape a)) ys))]).
Proof.
  intros Hg Hgn Hds Hdl Hdv Hdn Hes Hel Hf Hrank Hxs Hyl Hys.
  assert (length xs = n) as Hxl by (destruct Hxs; lia).
  pose proof (differentiates_Forall _ _ _ _ Hxs) as Hall.
  rewrite run_bind, (Gradient_call_run _ _ _ _ _ _ _ _ Hg Hgn Hds Hdl Hf Hrank Hxs).
  cbv beta iota.
  set (grad := NdArray (n :: shape a) (concat (data <$> xs))).
  rewrite (Divergence_call_run _ dv (length σ) opd grad n (shape a) es ys).
  - rewrite length_app, <- app_assoc. simpl. by rewrite Nat.add_1_r.
  - by apply lookup_old.
  - done.
  - done.
  - done.
  - apply lookup_fresh.
  - done.
  - split; [lia|]. intros k e y He Hy.
    assert (k < n) as Hk by (rewrite <- Hel; by eapply lookup_lt_Some).
    destruct (lookup_lt_is_Some_2 xs k) as [x Hx]; [lia|].
    assert (row grad k = x) as ->.
    { unfold grad. rewrite <- Hxl. by eapply row_stack. }
    by eapply Hys.
Qed.

(** *** More on construction *)

(** A list comprehension over [range(n)] stops at the first call that
    raises. *)
Lemma comprehension_first_failure {B} (call_k : nat → result B) n k e :
  k < n → (∀ j, j < k → ∃ d, call_k j = Ok d) → call_k k = Raise e →
  mapM call_k (seq 0 n) = Raise e.
Proof.
  intros Hk Hbefore Hfail.
  assert (∀ i, i ≤ k → k < i + n → mapM call_k (seq i n) = Raise e) as H.
  { clear Hk. induction n as [|n IH]; intros i Hik Hkn; [lia|].
    simpl seq. rewrite mapM_cons.
    destruct (decide (i = k)) as [->|Hne].
    - by rewrite Hfail.
    - destruct (Hbefore i) as [d Hd]; [lia|]. rewrite Hd.
      change (mapM call_k (seq (S i) n) ≫= (λ ds, mret (d :: ds)) = Raise e).
      rewrite IH by lia. done. }
  apply H; lia.
Qed.

Section construction.

Variable wrap_in_ndarray : value → outcome ndarray.
Variable FinDiff : value → gmap string value → outcome differentiator.

Lemma init_h_inv self kwargs self1 kwargs1 :
  init_h wrap_in_ndarray FinDiff self kwargs = Ok (self1, kwargs1) →
  (kwargs !! "h" = None ∧ self1 = self)
  ∨ (∃ ha n cs, self1 = {| h := Some ha; ndims := Some n; components := Some cs |}
       ∧ length cs = n).
Proof.
  unfold init_h. destruct (kwargs !! "h") as [hv|] eqn:Hh.
  - destruct (foreign (wrap_in_ndarray hv)) as [ha|]; [|done]. simpl.
    destruct (len ha) as [n|]; [|done]. simpl.
    match goal with |- context [mapM ?g (seq 0 n)] =>
      destruct (mapM g (seq 0 n)) as [cs|] eqn:Hcs end; [|done].
    simpl. intros [= <- _]. right. exists ha, n, cs. split; [done|].
    by apply comprehension_inv in Hcs as [? _].
  - intros [= <- _]. by left.
Qed.

(** An operator that the base constructor returns has as many
    differentiators as dimensions, or, when neither key was given, neither
    attribute; [Curl.__init__] returns only operators with exactly three
    differentiators. *)
Theorem constructed_operator_invariant kwargs :
  (∀ self, VectorOperator_init wrap_in_ndarray FinDiff new_instance kwargs = Ok self →
     (kwargs !! "h" = None ∧ kwargs !! "coords" = None ∧ self = new_instance)
     ∨ (∃ n ds, ndims self = Some n ∧ components self = Some ds ∧ length ds = n))
  ∧ (∀ self, Curl_init wrap_in_ndarray FinDiff new_instance kwargs = Ok self →
       ndims self = Some 3 ∧ ∃ d0 d1 d2, components self = Some [d0; d1; d2]).
Proof.
  assert (∀ self,
    VectorOperator_init wrap_in_ndarray FinDiff new_instance kwargs = Ok self →
    (kwargs !! "h" = None ∧ kwargs !! "coords" = None ∧ self = new_instance)
    ∨ (∃ n ds, ndims self = Some n ∧ components self = Some ds ∧ length ds = n)) as Hbase.
  { intros self. unfold VectorOperator_init.
    destruct (init_h _ _ new_instance kwargs) as [[self1 kw1]|] eqn:Hh; [|done]. simpl.
    pose proof (init_h_kwargs _ _ _ _ _ _ Hh) as ->.
    destruct (delete "h" kwargs !! "coords") as [coords|] eqn:Hc.
    - intros Hinit.
      apply (init_coords_inv _ _ _ coords) in Hinit as (n & ds & _ & -> & Hlen & _);
        [|done].
      right. by exists n, ds.
    - unfold init_coords. rewrite Hc. intros [= <-].
      apply init_h_inv in Hh as [[Hnone ->]|(ha & n & cs & -> & Hlen)].
      + left. rewrite lookup_delete_ne in Hc by done. done.
      + right. by exists n, cs. }
  split; [done|].
  intros self. unfold Curl_init.
  destruct (VectorOperator_init _ _ new_instance kwargs) as [self1|] eqn:Hinit; [|done].
  simpl. destruct (ndims self1) as [n|] eqn:Hn; [|done].
  destruct (decide (n ≠ 3)) as [|Heq%dec_stable]; [done|]. intros [= <-]. subst n.
  split; [done|].
  destruct (Hbase _ eq_refl) as [(_ & _ & ->)|(n & ds & Hn' & Hds & Hlen)]; [done|].
  rewrite Hn in Hn'. injection Hn' as <-.
  destruct ds as [|d0 [|d1 [|d2 [|]]]]; try done.
  by exists d0, d1, d2.
Qed.

End construction.

Section construction_errors.

Variable wrap_in_ndarray : value → outcome ndarray.
Variable FinDiff : value → gmap string value → outcome differentiator.

(** Construction raises what its first failing step raises, and goes no
    further: a failure of [wrap_in_ndarray], [len] on a 0-d array of
    spacings, the first call of [FinDiff] that fails in the comprehension
    over [h], each of them whatever [coords] holds; and, once the [h] branch
    is over or absent, [len] on an unsized [coords] and the first failing
    call of [FinDiff] there. *)
Theorem construction_stops_at_first_failure self0 kwargs :
  (∀ hv why, kwargs !! "h" = Some hv → wrap_in_ndarray hv = Fails why →
     VectorOperator_init wrap_in_ndarray FinDiff self0 kwargs = Raise (ForeignError why))
  ∧ (∀ hv ha, kwargs !! "h" = Some hv → wrap_in_ndarray hv = Returns ha → shape ha = [] →
       VectorOperator_init wrap_in_ndarray FinDiff self0 kwargs
       = Raise (BuiltinTypeError "len() of unsized object"))
  ∧ (∀ hv ha n k why,
       kwargs !! "h" = Some hv → wrap_in_ndarray hv = Returns ha → len ha = Ok n → k < n →
       (∀ j, j < k → ∃ d,
          FinDiff (VTuple [VInt (Z.of_nat j); as_value (row ha j)]) (delete "h" kwargs)
          = Returns d) →
       FinDiff (VTuple [VInt (Z.of_nat k); as_value (row ha k)]) (delete "h" kwargs)
       = Fails why →
       VectorOperator_init wrap_in_ndarray FinDiff self0 kwargs = Raise (ForeignError why))
  ∧ (∀ coords n k why,
       kwargs !! "h" = None → kwargs !! "coords" = Some coords →
       (∀ e, get_dimension coords = Raise e →
          VectorOperator_init wrap_in_ndarray FinDiff self0 kwargs = Raise e)
       ∧ (get_dimension coords = Ok n → k < n →
          (∀ j, j < k → ∃ d,
             FinDiff (VTuple [VInt (Z.of_nat j)])
                     (<["coords" := coords]> (delete "coords" kwargs)) = Returns d) →
          FinDiff (VTuple [VInt (Z.of_nat k)])
                  (<["coords" := coords]> (delete "coords" kwargs)) = Fails why →
          VectorOperator_init wrap_in_ndarray FinDiff self0 kwargs
          = Raise (ForeignError why))).
Proof.
  unfold VectorOperator_init. repeat split.
  - intros hv why Hh Hwrap. unfold init_h. by rewrite Hh, Hwrap.
  - intros hv ha Hh Hwrap Hs. unfold init_h. rewrite Hh. simpl. rewrite Hwrap. simpl.
    unfold len. by rewrite Hs.
  - intros hv ha n k why Hh Hwrap Hlen Hk Hbefore Hfail.
    unfold init_h. rewrite Hh. simpl. rewrite Hwrap. simpl. rewrite Hlen. simpl.
    destruct (len_shape _ _ Hlen) as [s Hs].
    rewrite (comprehension_first_failure _ n k (ForeignError why)); [done|done| |].
    + intros j Hj. destruct (Hbefore j Hj) as [d Hd]. exists d.
      rewrite (getitem_row _ _ _ _ Hs) by lia. simpl. by rewrite Hd.
    + rewrite (getitem_row _ _ _ _ Hs) by lia. simpl. by rewrite Hfail.
  - intros e He. unfold init_h. rewrite H. simpl.
    unfold init_coords. by rewrite H0, He.
  - intros Hn Hk Hbefore Hfail. unfold init_h. rewrite H. simpl.
    unfold init_coords. rewrite H0, Hn. simpl.
    rewrite (comprehension_first_failure _ n k (ForeignError why)); [done|done| |].
    + intros j Hj. destruct (Hbefore j Hj) as [d Hd]. exists d. by rewrite Hd.
    + by rewrite Hfail.
Qed.

(** [Laplacian.__init__] stops in the same way, with its defaults for [h]
    and [acc]. *)
Theorem Laplacian_init_stops_at_first_failure hv acc :
  (∀ why, wrap_in_ndarray (default (VList [VFloat 1%float]) hv) = Fails why →
     Laplacian_init wrap_in_ndarray FinDiff hv acc = Raise (ForeignError why))
  ∧ (∀ ha, wrap_in_ndarray (default (VList [VFloat 1%float]) hv) = Returns ha →
       (shape ha = [] →
        Laplacian_init wrap_in_ndarray FinDiff hv acc
        = Raise (BuiltinTypeError "len() of unsized object"))
       ∧ (∀ n k why, len ha = Ok n → k < n →
            (∀ j, j < k → ∃ d,
               FinDiff (VTuple [VInt (Z.of_nat j); as_value (row ha j); VInt 2])
                       {[ "acc" := default (VInt 2) acc ]} = Returns d) →
            FinDiff (VTuple [VInt (Z.of_nat k); as_value (row ha k); VInt 2])
                    {[ "acc" := default (VInt 2) acc ]} = Fails why →
            Laplacian_init wrap_in_ndarray FinDiff hv acc = Raise (ForeignError why))).
Proof.
  unfold Laplacian_init. split; [|intros ha Hwrap; split].
  - intros why Hwrap. by rewrite Hwrap.
  - intros Hs. rewrite Hwrap. simpl. unfold len. by rewrite Hs.
  - intros n k why Hlen Hk Hbefore Hfail. rewrite Hwrap. simpl. rewrite Hlen. simpl.
    destruct (len_shape _ _ Hlen) as [s Hs].
    rewrite (comprehension_first_failure _ n k (ForeignError why)); [done|done| |].
    + intros j Hj. destruct (Hbefore j Hj) as [d Hd]. exists d.
      rewrite (getitem_row _ _ _ _ Hs) by lia. simpl. by rewrite Hd.
    + rewrite (getitem_row _ _ _ _ Hs) by lia. simpl. by rewrite Hfail.
Qed.

Lemma getattr_ndims_unset σ self op :
  σ !! self = Some (OVectorOperator op) → ndims op = None →
  getattr_ndims self σ = (Raise (AttributeError "ndims"), σ).
Proof.
  intros H Hn. unfold getattr_ndims, load. rewrite run_bind, H. simpl.
  rewrite Hn. reflexivity.
Qed.

(** An operator constructed with neither [h] nor [coords] exists, and fails
    only when it is applied: [Gradient] and [Divergence] on an array end in
    the [AttributeError] of reading [self.ndims], after the check of the
    argument's type and leaving the new operator as the only new object. *)
Theorem application_of_unconfigured_operator kwargs σ f a :
  kwargs !! "h" = None → kwargs !! "coords" = None →
  σ !! f = Some (OValue (VArray a)) →
  (Gradient_new wrap_in_ndarray FinDiff kwargs ≫= λ g, Gradient_call g f) σ
  = (Raise (AttributeError "ndims"), σ ++ [OVectorOperator new_instance])
  ∧ (Divergence_new wrap_in_ndarray FinDiff kwargs ≫= λ d, Divergence_call d f) σ
    = (Raise (AttributeError "ndims"), σ ++ [OVectorOperator new_instance]).
Proof.
  intros Hh Hc Hf.
  assert (VectorOperator_init wrap_in_ndarray FinDiff new_instance kwargs
          = Ok new_instance) as Hinit.
  { unfold VectorOperator_init, init_h. rewrite Hh. simpl.
    unfold init_coords. by rewrite Hc. }
  pose proof (lookup_old σ (OVectorOperator new_instance) _ _ Hf) as Hf'.
  pose proof (lookup_fresh σ (OVectorOperator new_instance)) as Hself.
  split.
  - unfold Gradient_new, Gradient_init. rewrite run_bind, run_bind. unfold lift at 1.
    rewrite Hinit. cbv beta iota. rewrite alloc_run. cbv beta iota.
    unfold Gradient_call.
    run (deref_run _ _ _ Hf').
    change (negb (is_ndarray (VArray a))) with false. cbv iota.
    run (shape_of_run _ _ _ Hf').
    rewrite run_bind. by erewrite (getattr_ndims_unset _ _ _ Hself).
  - unfold Divergence_new, Divergence_init. rewrite run_bind, run_bind. unfold lift at 1.
    rewrite Hinit. cbv beta iota. rewrite alloc_run. cbv beta iota.
    unfold Divergence_call.
    run (deref_run _ _ _ Hf').
    change (negb (is_ndarray (VArray a)) && negb (is_list (VArray a))) with false.
    cbv iota.
    rewrite run_bind. unfold shape_mismatch.
    run (shape_of_run _ _ _ Hf').
    rewrite run_bind. by erewrite (getattr_ndims_unset _ _ _ Hself).
Qed.

End construction_errors.

(** *** Fields with the wrong number of components *)

Lemma for_app {A} (l1 l2 : list A) (body : A → M unit) σ :
  for_ (l1 ++ l2) body σ = (for_ l1 body ≫= λ _, for_ l2 body) σ.
Proof.
  revert σ. induction l1 as [|x l1 IH]; intros σ; [done|].
  simpl. rewrite !run_bind. destruct (body x σ) as [[[]|e] σ']; [|done].
  by rewrite IH, run_bind.
Qed.

(** A field of the right rank with fewer components than the grid has
    dimensions passes the check of [Divergence.__call__]; the loop then
    accumulates the derivatives of the components there are and ends in the
    [IndexError] of [f[k]] at the first missing one. *)
Theorem Divergence_call_too_few_components σ self f op a n m s ds xs :
  σ !! self = Some (OVectorOperator op) →
  ndims op = Some n → components op = Some ds → length ds = n →
  σ !! f = Some (OValue (VArray a)) →
  shape a = m :: s → length s = n → m < n →
  differentiates (take m ds) (λ k, as_value (row a k)) s xs →
  Divergence_call self f σ
  = (Raise IndexError, σ ++ [OValue (VArray (foldl plus (np_zeros s) xs))]).
Proof.
  intros Hself Hn Hds Hlen Hf Hs Hrank Hm Hxs.
  assert (length (take m ds) = m) as Htake by (rewrite length_take; lia).
  pose proof (differentiates_seq _ _ _ _ _ Hxs Htake) as Hseq.
  unfold Divergence_call.
  run (deref_run _ _ _ Hf).
  change (negb (is_ndarray (VArray a)) && negb (is_list (VArray a))) with false.
  cbv beta iota.
  run (shape_mismatch_run _ _ _ _ _ _ Hself Hn Hf).
  rewrite Hs. simpl length. rewrite decide_False by lia. cbv beta iota.
  run (shape_of_run _ _ _ Hf). run alloc_run.
  run (getattr_ndims_run _ _ _ _ (lookup_old _ _ _ _ Hself) Hn).
  rewrite Hs. simpl tail.
  replace n with (m + S (n - S m)) at 1 by lia. rewrite seq_app.
  rewrite run_bind, for_app, run_bind.
  rewrite (for_accumulate _ s σ (seq 0 m) xs); [| |done].
  - simpl. rewrite run_bind.
    destruct (lookup_lt_is_Some_2 ds m) as [d Hd]; [lia|].
    run (component_run _ _ _ _ _ _ (lookup_old _ _ _ _ Hself) Hds Hd).
    rewrite run_bind. unfold subscript at 1.
    run (deref_run _ _ _ (lookup_old _ _ _ _ Hf)).
    unfold getitem. rewrite Hs. rewrite decide_False by lia. reflexivity.
  - eapply Forall2_impl; [done|]. intros k x (d & Hd & Hdx & Hsx & Hwx) acc Hacc.
    split; [done|].
    apply lookup_take_Some in Hd as [Hd Hk].
    run (component_run _ _ _ _ _ _ (lookup_old _ _ _ _ Hself) Hds Hd).
    run (subscript_run _ _ _ _ _ _ (lookup_old _ _ _ _ Hf) Hs Hk).
    run (call_run _ _ _ _ Hdx).
    rewrite (iadd_run _ _ acc) by (try apply lookup_fresh; congruence).
    by rewrite insert_fresh.
Qed.

(** A field of rank four with more than three components passes the check
    of [Curl.__call__] as well.  The result has the shape of the field; its
    first three rows are computed from the first three components, and no
    assignment reaches a later row, which stays as [np.zeros] made it. *)
Theorem Curl_call_extra_components σ self f op a m s d0 d1 d2 x12 x21 x20 x02 x01 x10 :
  σ !! self = Some (OVectorOperator op) →
  ndims op = Some 3 → components op = Some [d0; d1; d2] →
  σ !! f = Some (OValue (VArray a)) →
  shape a = m :: s → length s = 3 → 3 ≤ m →
  yields d1 (as_value (row a 2)) s x12 → yields d2 (as_value (row a 1)) s x21 →
  yields d2 (as_value (row a 0)) s x20 → yields d0 (as_value (row a 2)) s x02 →
  yields d0 (as_value (row a 1)) s x01 → yields d1 (as_value (row a 0)) s x10 →
  ∃ r,
    Curl_call self f σ = (Ok (length σ), σ ++ [OValue (VArray r)])
    ∧ shape r = shape a
    ∧ row r 0 = plus (np_zeros s) (minus x12 x21)
    ∧ row r 1 = plus (np_zeros s) (minus x20 x02)
    ∧ row r 2 = plus (np_zeros s) (minus x01 x10)
    ∧ ∀ k, 3 ≤ k → k < m → row r k = np_zeros s.
Proof.
  intros Hself Hn Hds Hf Hs Hrank Hm H12 H21 H20 H02 H01 H10.
  set (w0 := plus (np_zeros s) (minus x12 x21)).
  set (w1 := plus (np_zeros s) (minus x20 x02)).
  set (w2 := plus (np_zeros s) (minus x01 x10)).
  set (R0 := np_zeros (m :: s)).
  set (R1 := set_row R0 0 w0).
  set (R2 := set_row R1 1 w1).
  set (R3 := set_row R2 2 w2).
  assert (∀ x y, yields x.1 x.2 s y → shape y = s ∧ well_formed y) as Hy
    by (by intros ?? (_ & ? & ?)).
  assert (∀ x y, shape x = s → well_formed x → shape y = s → well_formed y →
            shape (plus (np_zeros s) (minus x y)) = s
            ∧ well_formed (plus (np_zeros s) (minus x y))) as Hw.
  { intros x y Hx Hxw Hy' Hyw. split; [done|].
    apply plus_well_formed; [apply np_zeros_well_formed| |by simpl].
    apply minus_well_formed; congruence. }
  destruct (Hy (d1, _) _ H12), (Hy (d2, _) _ H21), (Hy (d2, _) _ H20),
    (Hy (d0, _) _ H02), (Hy (d0, _) _ H01), (Hy (d1, _) _ H10).
  destruct (Hw x12 x21) as [Hs0 Hw0]; [done..|].
  destruct (Hw x20 x02) as [Hs1 Hw1]; [done..|].
  destruct (Hw x01 x10) as [Hs2 Hw2]; [done..|].
  fold w0 in Hs0, Hw0. fold w1 in Hs1, Hw1. fold w2 in Hs2, Hw2.
  assert (well_formed R0) as HR0 by apply np_zeros_well_formed.
  pose proof (well_formed_length _ _ Hw0 Hs0) as Hl0.
  pose proof (well_formed_length _ _ Hw1 Hs1) as Hl1.
  pose proof (well_formed_length _ _ Hw2 Hs2) as Hl2.
  assert (well_formed R1) as HR1 by (apply (set_row_well_formed R0 m s); [done..|lia|done]).
  assert (well_formed R2) as HR2 by (apply (set_row_well_formed R1 m s); [done..|lia|done]).
  assert (∀ k, k < m → row R0 k = np_zeros s) as Z0 by (intros; by apply row_np_zeros).
  assert (∀ k, k < m → k ≠ 0 → row R1 k = row R0 k) as Z1.
  { intros k ??. unfold R1. by erewrite row_set_row_ne; [|done|done|lia|..]. }
  assert (∀ k, k < m → k ≠ 1 → row R2 k = row R1 k) as Z2.
  { intros k ??. unfold R2. by erewrite row_set_row_ne; [|done|done|lia|..]. }
  assert (∀ k, k < m → k ≠ 2 → row R3 k = row R2 k) as Z3.
  { intros k ??. unfold R3. by erewrite row_set_row_ne; [|done|done|lia|..]. }
  exists R3. split; [|split; [by rewrite Hs|repeat split]].
  - unfold Curl_call.
    run (deref_run _ _ _ Hf).
    change (negb (is_ndarray (VArray a)) && negb (is_list (VArray a))) with false.
    cbv beta iota.
    run (shape_mismatch_run _ _ _ _ _ _ Hself Hn Hf).
    rewrite Hs. simpl length. rewrite decide_False by lia. cbv beta iota.
    run (shape_of_run _ _ _ Hf). run alloc_run. rewrite Hs. fold R0.
    rewrite run_bind.
    erewrite (curl_row_run _ _ _ _ _ _ _ _ _ R0 m 0 1 2 2 1);
      [|by apply lookup_old|done|done|done|by apply lookup_old|done|lia|lia|done|done
       |apply lookup_fresh|done|lia].
    cbv beta iota. rewrite insert_fresh, Z0 by lia. fold w0. fold R1.
    rewrite run_bind.
    erewrite (curl_row_run _ _ _ _ _ _ _ _ _ R1 m 1 2 0 0 2);
      [|by apply lookup_old|done|done|done|by apply lookup_old|done|lia|lia|done|done
       |apply lookup_fresh|done|lia].
    cbv beta iota. rewrite insert_fresh, Z1, Z0 by lia. fold w1. fold R2.
    rewrite run_bind.
    erewrite (curl_row_run _ _ _ _ _ _ _ _ _ R2 m 2 0 1 1 0);
      [|by apply lookup_old|done|done|done|by apply lookup_old|done|lia|lia|done|done
       |apply lookup_fresh|done|lia].
    cbv beta iota. rewrite insert_fresh, Z2, Z1, Z0 by lia. fold w2. fold R3.
    reflexivity.
  - rewrite Z3, Z2 by lia. unfold R1. by erewrite row_set_row; [|done|done|lia|..].
  - rewrite Z3 by lia. unfold R2. by erewrite row_set_row; [|done|done|lia|..].
  - unfold R3. by erewrite row_set_row; [|done|done|lia|..].
  - intros k Hk Hkm. rewrite Z3, Z2, Z1, Z0 by lia. done.
Qed.

(** An array without axes never reaches the [ValueError] of the check: the
    rank differs from [ndims + 1] for every [ndims], so [f.shape[0]] is
    evaluated and raises [IndexError], in [Divergence.__call__] and in
    [Curl.__call__] alike, before anything is allocated. *)
Theorem vector_field_without_axes σ self f op n a :
  σ !! self = Some (OVectorOperator op) → ndims op = Some n →
  σ !! f = Some (OValue (VArray a)) → shape a = [] →
  Divergence_call self f σ = (Raise IndexError, σ)
  ∧ Curl_call self f σ = (Raise IndexError, σ).
Proof.
  intros Hself Hn Hf Hs.
  assert (shape_mismatch self f σ = (Raise IndexError, σ)) as Hcheck.
  { rewrite (shape_mismatch_run _ _ _ _ _ _ Hself Hn Hf), Hs. simpl.
    by rewrite decide_True by lia. }
  split.
  - unfold Divergence_call. run (deref_run _ _ _ Hf).
    change (negb (is_ndarray (VArray a)) && negb (is_list (VArray a))) with false.
    cbv beta iota. by rewrite run_bind, Hcheck.
  - unfold Curl_call. run (deref_run _ _ _ Hf).
    change (negb (is_ndarray (VArray a)) && negb (is_list (VArray a))) with false.
    cbv beta iota. by rewrite run_bind, Hcheck.
Qed.

(** ** The further properties on the sample grids *)

(** A list is no array for [Gradient.__call__]; a field of rank three is no
    scalar function on two axes. *)
Lemma Gradient_call_checks_witness :
  let σ := [OVectorOperator operator2; OValue (VArray field_position); OValue (VList [])] in
  Gradient_call 0 2 σ
  = (Raise (TypeError "Function to differentiate must be numpy.ndarray"), σ)
  ∧ Gradient_call 0 1 σ
    = (Raise (ValueError "Gradients can only be applied to scalar functions"), σ).
Proof.
  intros σ. split.
  - apply (proj1 (Gradient_call_checks σ 0 2) (OValue (VList [])) eq_refl eq_refl).
  - apply (proj1 (proj2 (Gradient_call_checks σ 0 1) operator2 2 field_position
                    eq_refl eq_refl eq_refl)).
    simpl. lia.
Defined.

(** A number is refused by the type check of both operators; a list of
    arrays passes it and fails on [f.shape]. *)
Lemma vector_field_type_check_witness :
  let σ := [OVectorOperator operator3; OValue (VFloat 1); OValue (VList [VArray field_xy])] in
  Divergence_call 0 1 σ
  = (Raise (TypeError "Function to differentiate must be numpy.ndarray or list of numpy.ndarrays"), σ)
  ∧ Curl_call 0 2 σ = (Raise (AttributeError "shape"), σ).
Proof.
  intros σ. split.
  - apply (proj1 (proj1 (vector_field_type_check σ 0 1) (OValue (VFloat 1))
                    eq_refl eq_refl eq_refl)).
  - apply (proj2 (proj2 (vector_field_type_check σ 0 2) [VArray field_xy] eq_refl)).
Defined.

(** An array of shape [(4, 3)] on a grid of three axes: both comparisons
    fail. *)
Lemma Curl_call_rejects_iff_witness :
  let a := NdArray [4; 3] (replicate 12 1%float) in
  let σ := [OVectorOperator operator3; OValue (VArray a)] in
  (length (shape a) ≠ 3 + 1 ∧ 4 ≠ 3)
  ∧ Curl_call 0 1 σ
    = (Raise (ValueError "Curl can only be applied to vector functions of the three dimensions"), σ).
Proof.
  intros a σ.
  assert (length (shape a) ≠ 3 + 1) as Hrank by (simpl; lia).
  assert (4 ≠ 3) as Hlead by lia.
  split; [by split|].
  exact (proj2 (Curl_call_rejects_iff σ 0 1 operator3 a 3 4 [3]
                  eq_refl eq_refl eq_refl eq_refl) Hrank Hlead).
Defined.

(** Two components on three axes. *)
Lemma Curl_call_too_few_components_witness :
  let σ := [OVectorOperator operator3; OValue (VArray field_two_components)] in
  Curl_call 0 1 σ
  = (Raise IndexError, σ ++ [OValue (VArray (np_zeros [2; 2; 2; 2]))]).
Proof.
  intros σ.
  apply (Curl_call_too_few_components σ 0 1 operator3 field_two_components 2 [2; 2; 2]
           _ _ _ eq_refl eq_refl eq_refl eq_refl eq_refl eq_refl).
  lia.
Defined.

(** The gradient of [field_xy]: one new cell, an array of two rows. *)
Lemma Gradient_call_outcome_witness :
  let σ := [OVectorOperator operator2; OValue (VArray field_xy)] in
  (Gradient_call 0 1 σ).1 = Ok 2
  ∧ ∃ g, (Gradient_call 0 1 σ).2 = σ ++ [OValue (VArray g)] ∧ shape g !! 0 = Some 2.
Proof.
  intros σ.
  assert (∃ r σ', Gradient_call 0 1 σ = (Ok r, σ')) as (r & σ' & Hrun)
    by (vm_compute; eauto).
  destruct (proj2 (Gradient_call_outcome σ 0 1) r σ' Hrun)
    as (-> & a & op & n & g & Hf & Hself & Hn & Hrank & -> & Hg).
  rewrite Hrun. split; [reflexivity|].
  exists g. split; [reflexivity|].
  injection Hself as <-. injection Hn as <-. exact Hg.
Defined.

(** The divergence of [field_position]: one new cell, of the shape of a
    component. *)
Lemma Divergence_call_outcome_witness :
  let σ := [OVectorOperator operator2; OValue (VArray field_position)] in
  (Divergence_call 0 1 σ).1 = Ok 2
  ∧ ∃ res, (Divergence_call 0 1 σ).2 = σ ++ [OValue (VArray res)] ∧ shape res = [3; 3].
Proof.
  intros σ.
  assert (∃ r σ', Divergence_call 0 1 σ = (Ok r, σ')) as (r & σ' & Hrun)
    by (vm_compute; eauto).
  destruct (Divergence_call_outcome σ 0 1 r σ' Hrun)
    as (-> & a & op & n & res & Hf & Hself & Hn & Hcheck & -> & Hres).
  rewrite Hrun. split; [reflexivity|].
  exists res. split; [reflexivity|].
  injection Hf as <-. exact Hres.
Defined.

(** The curl of [field_yzx]: one new cell, of the shape of the field. *)
Lemma Curl_call_outcome_witness :
  let σ := [OVectorOperator operator3; OValue (VArray field_yzx)] in
  (Curl_call 0 1 σ).1 = Ok 2
  ∧ ∃ res, (Curl_call 0 1 σ).2 = σ ++ [OValue (VArray res)] ∧ shape res = [3; 2; 2; 2].
Proof.
  intros σ.
  assert (∃ r σ', Curl_call 0 1 σ = (Ok r, σ')) as (r & σ' & Hrun)
    by (vm_compute; eauto).
  destruct (Curl_call_outcome σ 0 1 r σ' Hrun)
    as (-> & a & op & n & res & Hf & Hself & Hn & Hcheck & -> & Hres).
  rewrite Hrun. split; [reflexivity|].
  exists res. split; [reflexivity|].
  injection Hf as <-. exact Hres.
Defined.

(** The Laplacian of [field_squares]: one new cell, of the shape of the
    function. *)
Lemma Laplacian_call_outcome_witness :
  let σ := [OLaplacian laplacian2; OValue (VArray field_squares)] in
  (Laplacian_call sample_asarray 0 1 σ).1 = Ok 2
  ∧ ∃ res, (Laplacian_call sample_asarray 0 1 σ).2 = σ ++ [OValue (VArray res)]
      ∧ shape res = [3; 3].
Proof.
  intros σ.
  assert (∃ r σ', Laplacian_call sample_asarray 0 1 σ = (Ok r, σ')) as (r & σ' & Hrun)
    by (vm_compute; eauto).
  destruct (Laplacian_call_outcome sample_asarray σ 0 1 r σ' Hrun)
    as (-> & o & z & lp & res & Hf & Hz & Hself & -> & Hres & Harr).
  rewrite Hrun. split; [reflexivity|].
  exists res. split; [reflexivity|].
  injection Hf as <-. exact (Harr field_squares eq_refl).
Defined.

(** The divergence of the gradient of [field_xy] on the sample grid. *)
Lemma Divergence_of_Gradient_witness :
  let σ := [OVectorOperator operator2; OValue (VArray field_xy)] in
  (Gradient_call 0 1 ≫= λ r, Divergence_call 0 r) σ
  = (Ok 3, σ ++ [OValue (VArray (NdArray [2; 3; 3] (concat (data <$> gradient_xy))));
                 OValue (VArray (foldl plus (np_zeros [3; 3]) divergence_gradient_xy))]).
Proof.
  intros σ.
  apply (Divergence_of_Gradient σ 0 0 1 operator2 operator2 field_xy 2 _ _
           gradient_xy divergence_gradient_xy
           eq_refl eq_refl eq_refl eq_refl eq_refl eq_refl eq_refl eq_refl
           eq_refl eq_refl).
  - split; [reflexivity|]. intros k d x Hd Hx.
    destruct k as [|[|k]]; simpl in Hd, Hx; simplify_eq;
      (split; [|split]; vm_compute; reflexivity).
  - reflexivity.
  - intros k e x y He Hx Hy.
    destruct k as [|[|k]]; simpl in He, Hx, Hy; simplify_eq;
      (split; [|split]; vm_compute; reflexivity).
Defined.

(** [Curl(h=[1.0, 1.0, 1.0])] *)
Lemma constructed_operator_invariant_witness :
  Curl_init sample_wrap sample_FinDiff new_instance kwargs_h3 = Ok operator3
  ∧ ndims operator3 = Some 3
  ∧ ∃ d0 d1 d2, components operator3 = Some [d0; d1; d2].
Proof.
  assert (Curl_init sample_wrap sample_FinDiff new_instance kwargs_h3 = Ok operator3)
    as Hinit by (vm_compute; reflexivity).
  split; [exact Hinit|].
  exact (proj2 (constructed_operator_invariant sample_wrap sample_FinDiff kwargs_h3)
           operator3 Hinit).
Defined.

(** The second spacing is refused, and the second coordinate entry is no
    array: construction ends with what [FinDiff] raises for the second
    axis. *)
Lemma construction_stops_at_first_failure_witness :
  VectorOperator_init sample_wrap strict_FinDiff new_instance kwargs_h_zero
  = Raise (ForeignError "spacing must be positive")
  ∧ VectorOperator_init sample_wrap sample_FinDiff new_instance kwargs_coords_broken
    = Raise (ForeignError "no coordinates for this axis").
Proof.
  split.
  - apply (proj1 (proj2 (proj2 (construction_stops_at_first_failure
                                   sample_wrap strict_FinDiff new_instance kwargs_h_zero)))
             (VList [VFloat 1; VFloat 0]) (NdArray [2] [1; 0]%float) 2 1);
      [reflexivity|reflexivity|reflexivity|lia| |reflexivity].
    intros j Hj. destruct j as [|j]; [|lia]. eexists. reflexivity.
  - apply (proj2 (proj2 (proj2 (proj2 (construction_stops_at_first_failure
                                   sample_wrap sample_FinDiff new_instance
                                   kwargs_coords_broken)))
             (VList [VArray (NdArray [3] [0; 1; 3]%float); VFloat 1]) 2 1
             "no coordinates for this axis" eq_refl eq_refl));
      [reflexivity|lia| |reflexivity].
    intros j Hj. destruct j as [|j]; [|lia]. eexists. reflexivity.
Defined.

(** [Laplacian(h=[1.0, 0.0])] with the strict collaborator. *)
Lemma Laplacian_init_stops_at_first_failure_witness :
  Laplacian_init sample_wrap strict_FinDiff (Some (VList [VFloat 1; VFloat 0])) None
  = Raise (ForeignError "spacing must be positive").
Proof.
  apply (proj2 (proj2 (Laplacian_init_stops_at_first_failure sample_wrap strict_FinDiff
                         (Some (VList [VFloat 1; VFloat 0])) None)
                  (NdArray [2] [1; 0]%float) eq_refl) 2 1);
    [reflexivity|lia| |reflexivity].
  intros j Hj. destruct j as [|j]; [|lia]. eexists. reflexivity.
Defined.

(** [Gradient()(f)] and [Divergence()(f)] on an array. *)
Lemma application_of_unconfigured_operator_witness :
  let σ := [OValue (VArray field_xy)] in
  (Gradient_new sample_wrap sample_FinDiff ∅ ≫= λ g, Gradient_call g 0) σ
  = (Raise (AttributeError "ndims"), σ ++ [OVectorOperator new_instance])
  ∧ (Divergence_new sample_wrap sample_FinDiff ∅ ≫= λ d, Divergence_call d 0) σ
    = (Raise (AttributeError "ndims"), σ ++ [OVectorOperator new_instance]).
Proof.
  intros σ.
  apply (application_of_unconfigured_operator sample_wrap sample_FinDiff ∅ σ 0 field_xy);
    reflexivity.
Defined.

(** Two components on three axes: the derivatives of both are added, then
    [f[2]] fails. *)
Lemma Divergence_call_too_few_components_witness :
  let σ := [OVectorOperator operator3; OValue (VArray field_two_components)] in
  Divergence_call 0 1 σ
  = (Raise IndexError,
     σ ++ [OValue (VArray (foldl plus (np_zeros [2; 2; 2]) derivatives_two_components))]).
Proof.
  intros σ.
  apply (Divergence_call_too_few_components σ 0 1 operator3 field_two_components 3 2
           [2; 2; 2] _ derivatives_two_components
           eq_refl eq_refl eq_refl eq_refl eq_refl eq_refl eq_refl);
    [lia|].
  split; [reflexivity|]. intros k d x Hd Hx.
  destruct k as [|[|k]]; simpl in Hd, Hx; simplify_eq;
    (split; [|split]; vm_compute; reflexivity).
Defined.

(** Four components on three axes: the fourth row of the result is zero. *)
Lemma Curl_call_extra_components_witness :
  let σ := [OVectorOperator operator3; OValue (VArray field_four_components)] in
  ∃ r,
    Curl_call 0 1 σ = (Ok 2, σ ++ [OValue (VArray r)])
    ∧ shape r = [4; 2; 2; 2]
    ∧ row r 3 = np_zeros [2; 2; 2].
Proof.
  intros σ.
  assert (∀ p c, p < 3 → c < 3 →
            yields (along p 2 (d1_at (uniform 1))) (as_value (row field_four_components c))
              [2; 2; 2] (derivative_yzx p c)) as Hy.
  { intros p c Hp Hc.
    destruct p as [|[|[|p]]]; [| | |lia];
      (destruct c as [|[|[|c]]]; [| | |lia]);
      (split; [|split]; vm_compute; reflexivity). }
  destruct (Curl_call_extra_components σ 0 1 operator3 field_four_components 4 [2; 2; 2]
              _ _ _
              (derivative_yzx 1 2) (derivative_yzx 2 1) (derivative_yzx 2 0)
              (derivative_yzx 0 2) (derivative_yzx 0 1) (derivative_yzx 1 0)
              eq_refl eq_refl eq_refl eq_refl eq_refl eq_refl ltac:(lia)
              (Hy 1 2 ltac:(lia) ltac:(lia)) (Hy 2 1 ltac:(lia) ltac:(lia))
              (Hy 2 0 ltac:(lia) ltac:(lia)) (Hy 0 2 ltac:(lia) ltac:(lia))
              (Hy 0 1 ltac:(lia) ltac:(lia)) (Hy 1 0 ltac:(lia) ltac:(lia)))
    as (r & Hrun & Hshape & _ & _ & _ & Hrest).
  exists r. split; [exact Hrun|]. split; [exact Hshape|].
  apply Hrest; lia.
Defined.

(** A 0-d array on the grid of three axes. *)
Lemma vector_field_without_axes_witness :
  let σ := [OVectorOperator operator3; OValue (VArray (NdArray [] [1%float]))] in
  Divergence_call 0 1 σ = (Raise IndexError, σ)
  ∧ Curl_call 0 1 σ = (Raise IndexError, σ).
Proof.
  intros σ.
  apply (vector_field_without_axes σ 0 1 operator3 3 (NdArray [] [1%float]));
    reflexivity.
Defined.
